(** * procohat-task: admin console and user portal over a Firestore store

    A shallow embedding of the page handlers of the React application
    (src/pages/*.jsx, the portal dashboard, src/lib/imgbb.js) and the
    properties of its specification.

    Every handler of the source is an [async] function that reads and
    writes React state, talks to the Firestore store and to the ImgBB
    host, and shows toasts.  A handler is embedded as a computation in a
    state-and-exception monad [M] over a [World]: the store, the answers
    the environment will give (store failures, host replies, confirm
    dialogs), the browser's session storage and location, the log of
    observable effects, and the component's React state.

    Conventions.
    - A handler reads the React state once, when it starts ([getState]):
      the values its closure captured at render time.
    - Handlers run one at a time; what a handler awaits completes before
      the next event is handled.
    - The store fails a request exactly when [storeOutcomes] scripts a
      failure for it; a collection is kept in the order in which a query
      lists its documents.
    - The file has four parts: the embedding of the source, the
      vocabulary of the properties, example worlds, and the proofs. *)

From Stdlib Require Import List String Ascii NArith Bool Arith Lia DecimalString.
Import ListNotations.
Local Open Scope list_scope.

(* ================================================================== *)
(** * JavaScript strings *)
(* ================================================================== *)

Module JS.

(** A JavaScript string is a sequence of UTF-16 code units. *)
Definition jsstring := list N.

(** A source literal. *)
Definition lit (s : string) : jsstring :=
  map N_of_ascii (list_ascii_of_string s).

(** [a === b] on strings. *)
Fixpoint str_eqb (a b : jsstring) : bool :=
  match a, b with
  | [], [] => true
  | x :: a', y :: b' => N.eqb x y && str_eqb a' b'
  | _, _ => false
  end.

(** Truthiness of a string: [!s] is [negb (truthy s)]. *)
Definition truthy (s : jsstring) : bool :=
  match s with [] => false | _ :: _ => true end.

(** [a || b] on strings. *)
Definition or_else (a b : jsstring) : jsstring :=
  if truthy a then a else b.

(** ECMAScript WhiteSpace and LineTerminator code units: what
    [String.prototype.trim] strips and what [\s] matches. *)
Definition isWhiteSpace (c : N) : bool :=
  ((c =? 9) || (c =? 10) || (c =? 11) || (c =? 12) || (c =? 13) ||
   (c =? 32) || (c =? 160) || (c =? 5760) ||
   ((8192 <=? c) && (c <=? 8202)) ||
   (c =? 8232) || (c =? 8233) || (c =? 8239) || (c =? 8287) ||
   (c =? 12288) || (c =? 65279))%N.

Fixpoint trimStart (s : jsstring) : jsstring :=
  match s with
  | c :: s' => if isWhiteSpace c then trimStart s' else s
  | [] => []
  end.

Definition trimEnd (s : jsstring) : jsstring := rev (trimStart (rev s)).

Definition trim (s : jsstring) : jsstring := trimEnd (trimStart s).

(** [s.startsWith(p)]. *)
Fixpoint startsWith (s p : jsstring) : bool :=
  match p, s with
  | [], _ => true
  | y :: p', x :: s' => N.eqb x y && startsWith s' p'
  | _ :: _, [] => false
  end.

(** [l.join(sep)] on an array of strings. *)
Fixpoint join (sep : jsstring) (l : list jsstring) : jsstring :=
  match l with
  | [] => []
  | [x] => x
  | x :: rest => x ++ sep ++ join sep rest
  end.

(** [hay.includes(needle)], as a proposition. *)
Definition includes (hay needle : jsstring) : Prop :=
  exists pre post, hay = pre ++ needle ++ post.

End JS.
Import JS.

Arguments lit : simpl never.
Arguments trim : simpl never.

(* ================================================================== *)
(** * Regular expressions (the fragment the source uses) *)
(* ================================================================== *)

Module Regex.

Inductive ClassItem :=
| ClsSpace                        (* \s *)
| ClsChar (c : N).                (* a literal code unit *)

Definition item_matches (i : ClassItem) (c : N) : bool :=
  match i with
  | ClsSpace => isWhiteSpace c
  | ClsChar d => N.eqb c d
  end.

Inductive regex :=
| Void                            (* matches nothing; only arises in derivatives *)
| Eps
| Chr (c : N)
| NotClass (items : list ClassItem)    (* [^...] *)
| Seq (r1 r2 : regex)
| Alt (r1 r2 : regex)
| Star (r : regex)
| Plus (r : regex).

Fixpoint nullable (r : regex) : bool :=
  match r with
  | Void => false
  | Eps => true
  | Chr _ => false
  | NotClass _ => false
  | Seq r1 r2 => nullable r1 && nullable r2
  | Alt r1 r2 => nullable r1 || nullable r2
  | Star _ => true
  | Plus r => nullable r
  end.

(** Brzozowski derivative. *)
Fixpoint deriv (c : N) (r : regex) : regex :=
  match r with
  | Void => Void
  | Eps => Void
  | Chr d => if N.eqb c d then Eps else Void
  | NotClass items => if existsb (fun i => item_matches i c) items then Void else Eps
  | Seq r1 r2 =>
      if nullable r1 then Alt (Seq (deriv c r1) r2) (deriv c r2)
      else Seq (deriv c r1) r2
  | Alt r1 r2 => Alt (deriv c r1) (deriv c r2)
  | Star r => Seq (deriv c r) (Star r)
  | Plus r => Seq (deriv c r) (Star r)
  end.

(** [/^r$/.test(s)]: the whole string matches. *)
Fixpoint test (r : regex) (s : jsstring) : bool :=
  match s with
  | [] => nullable r
  | c :: s' => test (deriv c r) s'
  end.

(** The language of a regular expression. *)
Inductive Matches : regex -> jsstring -> Prop :=
| MEps : Matches Eps []
| MChr c : Matches (Chr c) [c]
| MNot items c :
    existsb (fun i => item_matches i c) items = false ->
    Matches (NotClass items) [c]
| MSeq r1 r2 s1 s2 :
    Matches r1 s1 -> Matches r2 s2 -> Matches (Seq r1 r2) (s1 ++ s2)
| MAltL r1 r2 s : Matches r1 s -> Matches (Alt r1 r2) s
| MAltR r1 r2 s : Matches r2 s -> Matches (Alt r1 r2) s
| MStar0 r : Matches (Star r) []
| MStarS r s1 s2 :
    Matches r s1 -> Matches (Star r) s2 -> Matches (Star r) (s1 ++ s2)
| MPlus r s1 s2 :
    Matches r s1 -> Matches (Star r) s2 -> Matches (Plus r) (s1 ++ s2).

End Regex.

(* ================================================================== *)
(** * Data model: the documents of the three Firestore collections *)
(* ================================================================== *)

(** Firestore's auto-generated document ids and its server timestamps are
    opaque to the application. *)
Definition DocId := N.
Definition Timestamp := N.

(** An element of [images] of an account, as built in [handleUploadImage]. *)
Record ImageRef := mkImageRef {
  url : jsstring;
  display_url : jsstring;
  thumb_url : jsstring;
  medium_url : jsstring;
  delete_url : jsstring;
  image_id : jsstring;
  uploadedAt : jsstring;
  filename : jsstring
}.

(** Firestore compares array elements field by field. *)
Definition ImageRef_eqb (a b : ImageRef) : bool :=
  str_eqb (url a) (url b) && str_eqb (display_url a) (display_url b) &&
  str_eqb (thumb_url a) (thumb_url b) && str_eqb (medium_url a) (medium_url b) &&
  str_eqb (delete_url a) (delete_url b) && str_eqb (image_id a) (image_id b) &&
  str_eqb (uploadedAt a) (uploadedAt b) && str_eqb (filename a) (filename b).

(** A document of collection [users].  [None] in [rejectionReason] and
    [rejectedAt] is JavaScript's [null] (or the field being absent); an
    absent [images] field reads as the empty array ([data.images || []]). *)
Record Account := mkAccount {
  username : jsstring;
  email : jsstring;
  role : jsstring;
  status : jsstring;
  rejectionReason : option jsstring;
  rejectedAt : option Timestamp;
  createdBy : jsstring;
  createdAt : Timestamp;
  images : list ImageRef
}.

Record AssignedUser := mkAssignedUser {
  au_id : DocId;
  au_username : jsstring;
  au_email : jsstring
}.

(** A document of collection [documents]. *)
Record Document := mkDocument {
  documentName : jsstring;
  assignedUsers : list AssignedUser;
  doc_createdBy : jsstring;
  doc_createdAt : Timestamp
}.

(** A document of collection [clinics]. *)
Record Clinic := mkClinic {
  clinicName : jsstring;
  doctorName : jsstring;
  clinicMail : jsstring;
  clinicNumber : jsstring;
  establishmentDate : jsstring;
  clinicLocation : jsstring;
  panchakrma : jsstring;
  numberOfPatients : jsstring;
  revenue : jsstring;
  clinic_createdBy : jsstring;
  clinic_createdAt : Timestamp;
  clinic_updatedAt : option Timestamp
}.

(** The string fields a [where(field, '==', value)] clause can name. *)
Class DocData (D : Type) := stringField : jsstring -> D -> option jsstring.

#[export] Instance Account_DocData : DocData Account := fun f a =>
  if str_eqb f (lit "createdBy") then Some (createdBy a)
  else if str_eqb f (lit "status") then Some (status a)
  else if str_eqb f (lit "email") then Some (email a)
  else if str_eqb f (lit "username") then Some (username a)
  else if str_eqb f (lit "role") then Some (role a)
  else None.

#[export] Instance Document_DocData : DocData Document := fun f d =>
  if str_eqb f (lit "createdBy") then Some (doc_createdBy d)
  else if str_eqb f (lit "documentName") then Some (documentName d)
  else None.

#[export] Instance Clinic_DocData : DocData Clinic := fun f c =>
  if str_eqb f (lit "createdBy") then Some (clinic_createdBy c)
  else if str_eqb f (lit "clinicName") then Some (clinicName c)
  else if str_eqb f (lit "doctorName") then Some (doctorName c)
  else if str_eqb f (lit "clinicMail") then Some (clinicMail c)
  else None.

(** The database: each collection in the order in which a query lists
    its documents. *)
Record Store := mkStore {
  users : list (DocId * Account);
  documents : list (DocId * Document);
  clinics : list (DocId * Clinic);
  serverTime : Timestamp;
  nextId : DocId
}.

(** A file chosen in an [<input type="file">]. *)
Record File := mkFile {
  file_name : jsstring;
  file_type : jsstring;
  file_size : N
}.

(** What a rejected promise carries: Firestore's [error.code], the
    [message], and axios's [error.response.data.error.message]. *)
Record Error := mkError {
  code : jsstring;
  message : jsstring;
  response_message : option jsstring
}.

(** ImgBB's JSON answer, [response.data]. *)
Record ImgBBData := mkImgBBData {
  r_url : jsstring;
  r_display_url : jsstring;
  r_delete_url : jsstring;
  r_thumb_url : jsstring;
  r_medium_url : jsstring;
  r_id : jsstring
}.

Inductive HostReply :=
| HostFails (e : Error)                          (* the POST rejects *)
| HostAnswers (success : bool) (data : ImgBBData).

(** The Firebase user of the auth context; [auth_email] may be [null]. *)
Record AuthUser := mkAuthUser {
  auth_email : option jsstring
}.

(** [user?.email] when truthy. *)
Definition userEmail (u : option AuthUser) : option jsstring :=
  match u with
  | Some a =>
      match auth_email a with
      | Some e => if truthy e then Some e else None
      | None => None
      end
  | None => None
  end.

(** A [where(field, '==', value)] clause. *)
Record Where := mkWhere {
  w_field : jsstring;
  w_value : option jsstring             (* [None] is [null] *)
}.

(** The update payloads the application sends for a [users] document. *)
Inductive FieldTime := ServerTimestamp | NullTime.

Inductive UserPatch :=
| StatusPatch (st : jsstring) (reason : option jsstring) (at_ : FieldTime)
| ImagesArrayRemove (img : ImageRef)
| ImagesArrayUnion (img : ImageRef).

(** What the [Add New User] form holds. *)
Record FormData := mkFormData {
  f_username : jsstring;
  f_email : jsstring;
  f_role : jsstring;
  f_status : jsstring
}.

(** Observable effects, oldest first in the log. *)
Inductive Effect :=
| Toast (title description : jsstring) (destructive : bool)
| ConsoleError (label : jsstring)
| ConsoleLog (label : jsstring)
| GetDocs (collection : jsstring) (filters : list Where)
| Snapshot (collection : jsstring) (docs : list (DocId * option jsstring))
| UpdateDoc (collection : jsstring) (id : DocId) (patch : UserPatch)
| AddDoc (collection : jsstring) (data : FormData) (owner : jsstring)
| HttpPost (url : jsstring) (file : File)
| Download (name content : jsstring).

(** The [createdBy] fields of all the documents the store returned. *)
Definition returnedOwners (l : list Effect) : list (option jsstring) :=
  flat_map (fun e => match e with
                     | Snapshot _ docs => map snd docs
                     | _ => []
                     end) l.

Definition isStoreRequest (e : Effect) : bool :=
  match e with
  | GetDocs _ _ | UpdateDoc _ _ _ | AddDoc _ _ _ => true
  | _ => false
  end.


(* ================================================================== *)
(** * Worlds and the handler monad *)
(* ================================================================== *)

Record World (S : Type) := mkWorld {
  db : Store;
  currentUser : option AuthUser;        (* useAuth().user *)
  storeOutcomes : list (option Error);  (* fate of the successive store requests *)
  hostReplies : list HostReply;         (* ImgBB's successive answers *)
  confirmAnswers : list bool;           (* answers to window.confirm *)
  dateNow : jsstring;                   (* new Date().toISOString() *)
  sessionStorage : option jsstring;     (* key 'userPortalEmail' *)
  location : jsstring;                  (* wouter's location *)
  log : list Effect;
  ui : S                                (* the component's React state *)
}.

Arguments mkWorld {S}.
Arguments db {S}.
Arguments currentUser {S}.
Arguments storeOutcomes {S}.
Arguments hostReplies {S}.
Arguments confirmAnswers {S}.
Arguments dateNow {S}.
Arguments sessionStorage {S}.
Arguments location {S}.
Arguments log {S}.
Arguments ui {S}.

Inductive Completion (A : Type) :=
| Normal (a : A)
| Throw (e : Error).

Arguments Normal {A}.
Arguments Throw {A}.

Definition M (S A : Type) := World S -> Completion A * World S.

Section Monad.
Context {S : Type}.

Definition ret {A} (a : A) : M S A := fun w => (Normal a, w).

Definition bind {A B} (m : M S A) (k : A -> M S B) : M S B := fun w =>
  match m w with
  | (Normal a, w1) => k a w1
  | (Throw e, w1) => (Throw e, w1)
  end.

Definition throw {A} (e : Error) : M S A := fun w => (Throw e, w).

(** [try { body } catch (e) { handler } finally { fin }]. *)
Definition try_catch_finally {A} (body : M S A) (handler : Error -> M S A)
    (fin : M S unit) : M S A := fun w =>
  let after (r : Completion A * World S) :=
    match fin (snd r) with
    | (Normal _, w') => (fst r, w')
    | (Throw e, w') => (Throw e, w')
    end in
  match body w with
  | (Normal a, w1) => after (Normal a, w1)
  | (Throw e, w1) => after (handler e w1)
  end.

(** [try { body } catch (e) { handler }]. *)
Definition try_catch {A} (body : M S A) (handler : Error -> M S A) : M S A :=
  fun w =>
  match body w with
  | (Normal a, w1) => (Normal a, w1)
  | (Throw e, w1) => handler e w1
  end.

(** The world a handler leaves behind. *)
Definition run {A} (m : M S A) (w : World S) : World S := snd (m w).

Definition set_db (d : Store) (w : World S) : World S :=
  mkWorld d (currentUser w) (storeOutcomes w) (hostReplies w)
    (confirmAnswers w) (dateNow w) (sessionStorage w) (location w) (log w) (ui w).

Definition set_storeOutcomes (o : list (option Error)) (w : World S) : World S :=
  mkWorld (db w) (currentUser w) o (hostReplies w)
    (confirmAnswers w) (dateNow w) (sessionStorage w) (location w) (log w) (ui w).

Definition set_hostReplies (h : list HostReply) (w : World S) : World S :=
  mkWorld (db w) (currentUser w) (storeOutcomes w) h
    (confirmAnswers w) (dateNow w) (sessionStorage w) (location w) (log w) (ui w).

Definition set_confirmAnswers (c : list bool) (w : World S) : World S :=
  mkWorld (db w) (currentUser w) (storeOutcomes w) (hostReplies w)
    c (dateNow w) (sessionStorage w) (location w) (log w) (ui w).

Definition set_sessionStorage (v : option jsstring) (w : World S) : World S :=
  mkWorld (db w) (currentUser w) (storeOutcomes w) (hostReplies w)
    (confirmAnswers w) (dateNow w) v (location w) (log w) (ui w).

Definition set_location (l : jsstring) (w : World S) : World S :=
  mkWorld (db w) (currentUser w) (storeOutcomes w) (hostReplies w)
    (confirmAnswers w) (dateNow w) (sessionStorage w) l (log w) (ui w).

Definition set_log (l : list Effect) (w : World S) : World S :=
  mkWorld (db w) (currentUser w) (storeOutcomes w) (hostReplies w)
    (confirmAnswers w) (dateNow w) (sessionStorage w) (location w) l (ui w).

Definition set_ui (s : S) (w : World S) : World S :=
  mkWorld (db w) (currentUser w) (storeOutcomes w) (hostReplies w)
    (confirmAnswers w) (dateNow w) (sessionStorage w) (location w) (log w) s.

(** Primitive actions. *)
Definition emit (e : Effect) : M S unit := fun w =>
  (Normal tt, set_log (log w ++ [e]) w).

Definition getState : M S S := fun w => (Normal (ui w), w).

Definition setState (f : S -> S) : M S unit := fun w =>
  (Normal tt, set_ui (f (ui w)) w).

Definition useAuth : M S (option AuthUser) := fun w => (Normal (currentUser w), w).

Definition toast (title description : string) (destructive : bool) : M S unit :=
  emit (Toast (lit title) (lit description) destructive).

Definition console_error (label : string) : M S unit :=
  emit (ConsoleError (lit label)).

Definition sessionStorage_getItem : M S (option jsstring) := fun w =>
  (Normal (sessionStorage w), w).

Definition sessionStorage_setItem (v : jsstring) : M S unit := fun w =>
  (Normal tt, set_sessionStorage (Some v) w).

Definition sessionStorage_removeItem : M S unit := fun w =>
  (Normal tt, set_sessionStorage None w).

Definition setLocation (path : string) : M S unit := fun w =>
  (Normal tt, set_location (lit path) w).

(** [window.confirm]: the user's next answer (declining when none is scripted). *)
Definition confirm : M S bool := fun w =>
  match confirmAnswers w with
  | b :: rest => (Normal b, set_confirmAnswers rest w)
  | [] => (Normal false, w)
  end.

(** The fate of the next store request: it succeeds unless the
    environment scripted a failure for it. *)
Definition nextOutcome : M S unit := fun w =>
  match storeOutcomes w with
  | Some e :: rest => (Throw e, set_storeOutcomes rest w)
  | None :: rest => (Normal tt, set_storeOutcomes rest w)
  | [] => (Normal tt, w)
  end.

End Monad.

Declare Scope handler_scope.
Delimit Scope handler_scope with handler.
Notation "x <- m ;; k" := (bind m (fun x => k))
  (at level 61, m at next level, right associativity) : handler_scope.
Notation "m ;; k" := (bind m (fun _ => k))
  (at level 61, right associativity) : handler_scope.
Local Open Scope handler_scope.

(* ================================================================== *)
(** * The Firestore client (firebase/firestore), as the pages use it *)
(* ================================================================== *)

(** The client library is not part of the repository: [where], [getDocs],
    [updateDoc], [addDoc], [arrayUnion], [arrayRemove] and
    [serverTimestamp] follow its documented behaviour. *)

Section Firestore.
Context {S : Type}.

(** Does a document satisfy a [where] clause?  No string field equals [null]. *)
Definition matches {D} `{DocData D} (c : Where) (d : D) : bool :=
  match stringField (w_field c) d, w_value c with
  | Some v, Some x => str_eqb v x
  | _, _ => false
  end.

(** [query(collection, where..., where...)]: the documents that satisfy
    every clause, in collection order. *)
Definition query {D} `{DocData D} (docs : list (DocId * D)) (filters : list Where)
  : list (DocId * D) :=
  filter (fun d => forallb (fun c => matches c (snd d)) filters) docs.

(** What the log keeps of a document the store returned: its id and its
    [createdBy] field. *)
Definition summary {D} `{DocData D} (d : DocId * D) : DocId * option jsstring :=
  (fst d, stringField (lit "createdBy") (snd d)).

(** [getDocs(query(collection(db, name), ...filters))] up to the promise
    it returns: the request leaves. *)
Definition getDocs_request (name : string) (filters : list Where) : M S unit :=
  emit (GetDocs (lit name) filters).

(** The promise settles: the store rejects the request, or answers with
    the snapshot. *)
Definition getDocs_answer {D} `{DocData D} (name : string)
    (coll : Store -> list (DocId * D)) (filters : list Where)
  : M S (list (DocId * D)) :=
  nextOutcome ;;
  snapshot <- (fun w => (Normal (query (coll (db w)) filters), w)) ;;
  emit (Snapshot (lit name) (map summary snapshot)) ;;
  ret snapshot.

(** [await getDocs(query(collection(db, name), ...filters))]: the request,
    then the snapshot the store answers with. *)
Definition getDocs {D} `{DocData D} (name : string)
    (coll : Store -> list (DocId * D)) (filters : list Where)
  : M S (list (DocId * D)) :=
  getDocs_request name filters ;;
  getDocs_answer name coll filters.

(** [arrayRemove(x)] removes every element equal to [x];
    [arrayUnion(x)] appends [x] unless an equal element is present. *)
Definition arrayRemove (x : ImageRef) (l : list ImageRef) : list ImageRef :=
  filter (fun y => negb (ImageRef_eqb y x)) l.

Definition arrayUnion (x : ImageRef) (l : list ImageRef) : list ImageRef :=
  if existsb (fun y => ImageRef_eqb y x) l then l else l ++ [x].

Definition applyPatch (now : Timestamp) (p : UserPatch) (a : Account) : Account :=
  match p with
  | StatusPatch st reason at_ =>
      mkAccount (username a) (email a) (role a) st reason
        (match at_ with ServerTimestamp => Some now | NullTime => None end)
        (createdBy a) (createdAt a) (images a)
  | ImagesArrayRemove img =>
      mkAccount (username a) (email a) (role a) (status a) (rejectionReason a)
        (rejectedAt a) (createdBy a) (createdAt a) (arrayRemove img (images a))
  | ImagesArrayUnion img =>
      mkAccount (username a) (email a) (role a) (status a) (rejectionReason a)
        (rejectedAt a) (createdBy a) (createdAt a) (arrayUnion img (images a))
  end.

Definition patchUsers (id : DocId) (p : UserPatch) (s : Store) : Store :=
  mkStore
    (map (fun d => if N.eqb (fst d) id
                   then (fst d, applyPatch (serverTime s) p (snd d)) else d)
         (users s))
    (documents s) (clinics s) (N.succ (serverTime s)) (nextId s).

Definition not_found : Error :=
  mkError (lit "not-found") (lit "No document to update") None.

(** [await updateDoc(doc(db, 'users', id), patch)]: fails on a document
    that does not exist. *)
Definition updateDoc (id : DocId) (p : UserPatch) : M S unit :=
  emit (UpdateDoc (lit "users") id p) ;;
  nextOutcome ;;
  (fun w =>
     if existsb (fun d => N.eqb (fst d) id) (users (db w))
     then (Normal tt, set_db (patchUsers id p (db w)) w)
     else (Throw not_found, w)).

Definition insertUser (data : FormData) (owner : jsstring) (s : Store) : Store :=
  mkStore
    (users s ++
       [(nextId s,
         mkAccount (f_username data) (f_email data) (f_role data) (f_status data)
           None None owner (serverTime s) [])])
    (documents s) (clinics s) (N.succ (serverTime s)) (N.succ (nextId s)).

(** [await addDoc(collection(db, 'users'),
      {...formData, createdAt: serverTimestamp(), createdBy: owner})]. *)
Definition addDoc (data : FormData) (owner : jsstring) : M S DocId :=
  emit (AddDoc (lit "users") data owner) ;;
  nextOutcome ;;
  (fun w => (Normal (nextId (db w)), set_db (insertUser data owner (db w)) w)).

(** [await Promise.all(ps)] for requests dispatched together: each one
    runs to its own completion, in dispatch order; the first rejection is
    what the caller sees. *)
Fixpoint promiseAll (ps : list (M S unit)) : M S unit :=
  match ps with
  | [] => ret tt
  | p :: rest => fun w =>
      match p w with
      | (Normal _, w1) => promiseAll rest w1
      | (Throw e, w1) => (Throw e, snd (promiseAll rest w1))
      end
  end.

End Firestore.

(** Decimal rendering of a number inside a template string. *)
Definition N_to_js (n : N) : jsstring :=
  lit (DecimalString.NilZero.string_of_uint (N.to_uint n)).

(* ================================================================== *)
(** * src/pages/UserManagement.jsx *)
(* ================================================================== *)

Module UserManagement.

Record State := mkState {
  users_ : list (DocId * Account);
  loading : bool;
  selectedUsers : list DocId;
  bulkAction : jsstring;
  rejectionReason_ : jsstring;
  submitting : bool
}.

(** The state of [useState] at mount. *)
Definition initial : State := mkState [] true [] [] [] false.

Definition setUsers (v : list (DocId * Account)) (s : State) : State :=
  mkState v (loading s) (selectedUsers s) (bulkAction s) (rejectionReason_ s) (submitting s).
Definition setLoading (v : bool) (s : State) : State :=
  mkState (users_ s) v (selectedUsers s) (bulkAction s) (rejectionReason_ s) (submitting s).
Definition setSelectedUsers (v : list DocId) (s : State) : State :=
  mkState (users_ s) (loading s) v (bulkAction s) (rejectionReason_ s) (submitting s).
Definition setBulkAction (v : jsstring) (s : State) : State :=
  mkState (users_ s) (loading s) (selectedUsers s) v (rejectionReason_ s) (submitting s).
Definition setRejectionReason (v : jsstring) (s : State) : State :=
  mkState (users_ s) (loading s) (selectedUsers s) (bulkAction s) v (submitting s).
Definition setSubmitting (v : bool) (s : State) : State :=
  mkState (users_ s) (loading s) (selectedUsers s) (bulkAction s) (rejectionReason_ s) v.

(** The query of [fetchUsers]. *)
Definition usersQuery (email : jsstring) : list Where :=
  [mkWhere (lit "createdBy") (Some email)].

Definition fetchUsers : M State unit :=
  user <- useAuth ;;
  match userEmail user with
  | None => ret tt
  | Some user_email =>
      try_catch_finally
        (usersData <- getDocs "users" users (usersQuery user_email) ;;
         setState (setUsers usersData))
        (fun error =>
           console_error "Error fetching users:" ;;
           toast "Error" "Failed to load users." true)
        (setState (setLoading false))
  end.

(** The payload built for every selected user. *)
Definition updateData (bulkAction rejectionReason : jsstring) : UserPatch :=
  if str_eqb bulkAction (lit "rejected")
  then StatusPatch bulkAction (Some rejectionReason) ServerTimestamp
  else StatusPatch bulkAction None NullTime.

Definition handleBulkUpdate : M State unit :=
  st <- getState ;;
  if negb (truthy (bulkAction st)) then
    toast "Warning" "Please select an action." true
  else if (List.length (selectedUsers st) =? 0)%nat then
    toast "Warning" "Please select at least one user." true
  else if str_eqb (bulkAction st) (lit "rejected")
          && negb (truthy (trim (rejectionReason_ st))) then
    toast "Warning" "Please provide a reason for rejection." true
  else
    setState (setSubmitting true) ;;
    try_catch_finally
      (promiseAll
         (map (fun userId =>
                 updateDoc userId (updateData (bulkAction st) (rejectionReason_ st)))
              (selectedUsers st)) ;;
       emit (Toast (lit "Success")
               (N_to_js (N.of_nat (List.length (selectedUsers st)))
                  ++ lit " user(s) updated successfully!") false) ;;
       fetchUsers ;;
       setState (setSelectedUsers []) ;;
       setState (setBulkAction []) ;;
       setState (setRejectionReason []))
      (fun error =>
         console_error "Error updating users:" ;;
         toast "Error" "Failed to update users." true)
      (setState (setSubmitting false)).

End UserManagement.

(* ================================================================== *)
(** * src/pages/UserPortalLogin.jsx *)
(* ================================================================== *)

Module UserPortalLogin.

Record State := mkState {
  email_ : jsstring;
  error : jsstring;
  loading : bool
}.

Definition setError (v : jsstring) (s : State) : State :=
  mkState (email_ s) v (loading s).
Definition setLoading (v : bool) (s : State) : State :=
  mkState (email_ s) (error s) v.

Import Regex.

(** [/^[^\s@]+@[^\s@]+\.[^\s@]+$/] *)
Definition emailRegex : regex :=
  let part := Plus (NotClass [ClsSpace; ClsChar 64]) in
  Seq part (Seq (Chr 64) (Seq part (Seq (Chr 46) part))).

Definition denial (status : jsstring) : jsstring :=
  lit "Your account verification is " ++ status
    ++ lit ". Please contact your administrator.".

Definition handleSubmit : M State unit :=
  st <- getState ;;
  let email := email_ st in
  setState (setError []) ;;
  if negb (truthy (trim email)) then
    setState (setError (lit "Please enter your email address"))
  else if negb (test emailRegex email) then
    setState (setError (lit "Please enter a valid email address"))
  else
    setState (setLoading true) ;;
    try_catch_finally
      (docs <- getDocs "users" users [mkWhere (lit "email") (Some (trim email))] ;;
       match docs with
       | [] =>
           setState (setError (lit "Email not found. Please contact your administrator.")) ;;
           setState (setLoading false)
       | userDoc :: _ =>
           let userData := snd userDoc in
           if negb (str_eqb (status userData) (lit "approved")) then
             setState (setError (denial (status userData))) ;;
             setState (setLoading false)
           else
             sessionStorage_setItem (trim email) ;;
             setLocation "/user-portal-dashboard"
       end)
      (fun err =>
         console_error "Error accessing user portal:" ;;
         setState (setError (or_else (message err) (lit "Failed to access user portal"))))
      (setState (setLoading false)).

End UserPortalLogin.

(* ================================================================== *)
(** * src/lib/imgbb.js *)
(* ================================================================== *)

Module ImgBB.

(** The key when [VITE_IMGBB_API_KEY] is not set. *)
Definition IMGBB_API_KEY : jsstring := lit "8a3c7c8f5f8e8c8f5f8e8c8f5f8e8c8f".

Definition upload_url : jsstring :=
  lit "https://api.imgbb.com/1/upload?key=" ++ IMGBB_API_KEY.

Definition network_error : Error :=
  mkError (lit "ERR_NETWORK") (lit "Network Error") None.

Section ImgBB.
Context {S : Type}.

(** [await axios.post(url, formData, ...)]: the form carries the file's
    base64 payload and its name.  The host's next scripted reply answers
    it; the request fails when none is left. *)
Definition axios_post (url : jsstring) (imageFile : File) : M S (bool * ImgBBData) :=
  emit (HttpPost url imageFile) ;;
  (fun w =>
     match hostReplies w with
     | HostAnswers success data :: rest => (Normal (success, data), set_hostReplies rest w)
     | HostFails e :: rest => (Throw e, set_hostReplies rest w)
     | [] => (Throw network_error, w)
     end).

(** The object returned on success has the fields of the host's answer
    ([thumb.url] as [thumb_url], [medium.url] as [medium_url], [id] as
    [image_id]). *)
Definition uploadImageToImgBB (imageFile : File) : M S ImgBBData :=
  try_catch
    (response <- axios_post upload_url imageFile ;;
     if fst response then ret (snd response)
     else throw (mkError [] (lit "Failed to upload image to ImgBB") None))
    (fun error =>
       console_error "ImgBB upload error:" ;;
       throw error).

End ImgBB.
End ImgBB.

(* ================================================================== *)
(** * The portal dashboard page (UserPortalDashboard) *)
(* ================================================================== *)

Module UserPortalDashboard.

Record State := mkState {
  userData : option (DocId * Account);
  documents_ : list (DocId * Document);
  loading : bool;
  sidebarOpen : bool;
  selectedFile : option File;
  uploading : bool;
  userImages : list ImageRef;
  editingImage : option ImageRef
}.

Definition initial : State := mkState None [] true false None false [] None.

Definition setUserData (v : option (DocId * Account)) (s : State) : State :=
  mkState v (documents_ s) (loading s) (sidebarOpen s) (selectedFile s)
    (uploading s) (userImages s) (editingImage s).
Definition setDocuments (v : list (DocId * Document)) (s : State) : State :=
  mkState (userData s) v (loading s) (sidebarOpen s) (selectedFile s)
    (uploading s) (userImages s) (editingImage s).
Definition setLoading (v : bool) (s : State) : State :=
  mkState (userData s) (documents_ s) v (sidebarOpen s) (selectedFile s)
    (uploading s) (userImages s) (editingImage s).
Definition setSidebarOpen (v : bool) (s : State) : State :=
  mkState (userData s) (documents_ s) (loading s) v (selectedFile s)
    (uploading s) (userImages s) (editingImage s).
Definition setSelectedFile (v : option File) (s : State) : State :=
  mkState (userData s) (documents_ s) (loading s) (sidebarOpen s) v
    (uploading s) (userImages s) (editingImage s).
Definition setUploading (v : bool) (s : State) : State :=
  mkState (userData s) (documents_ s) (loading s) (sidebarOpen s) (selectedFile s)
    v (userImages s) (editingImage s).
Definition setUserImages (v : list ImageRef) (s : State) : State :=
  mkState (userData s) (documents_ s) (loading s) (sidebarOpen s) (selectedFile s)
    (uploading s) v (editingImage s).
Definition setEditingImage (v : option ImageRef) (s : State) : State :=
  mkState (userData s) (documents_ s) (loading s) (sidebarOpen s) (selectedFile s)
    (uploading s) (userImages s) v.

(** [fetchUserData] around its one [await]: [snapshot] is the awaited
    [getDocs]. *)
Definition fetchUserData_around (snapshot : M State (list (DocId * Account)))
  : M State unit :=
  try_catch_finally
    (docs <- snapshot ;;
     match docs with
     | userDoc :: _ =>
         setState (setUserData (Some userDoc)) ;;
         setState (setUserImages (images (snd userDoc)))
     | [] => ret tt
     end)
    (fun error => console_error "Error fetching user data:")
    (setState (setLoading false)).

Definition fetchUserData (email : option jsstring) : M State unit :=
  fetchUserData_around (getDocs "users" users [mkWhere (lit "email") email]).

(** [doc.assignedUsers?.some(user => user.email === email)] *)
Definition assignedTo (email : jsstring) (doc : DocId * Document) : bool :=
  existsb (fun user => str_eqb (au_email user) email) (assignedUsers (snd doc)).

(** [fetchUserDocuments] around its one [await]. *)
Definition fetchUserDocuments_around (email : jsstring)
    (snapshot : M State (list (DocId * Document))) : M State unit :=
  try_catch
    (allDocs <- snapshot ;;
     let userDocs := filter (assignedTo email) allDocs in
     setState (setDocuments userDocs))
    (fun error => console_error "Error fetching documents:").

Definition fetchUserDocuments (email : jsstring) : M State unit :=
  fetchUserDocuments_around email (getDocs "documents" documents []).

(** The [useEffect] that runs once at mount.  Neither call is awaited:
    each handler runs up to its [await], so both requests have left
    before either answer is handled.  The answers are handled in the
    order of the requests. *)
Definition mount : M State unit :=
  userEmail <- sessionStorage_getItem ;;
  match userEmail with
  | Some e =>
      if truthy e then
        getDocs_request "users" [mkWhere (lit "email") (Some e)] ;;
        getDocs_request "documents" [] ;;
        fetchUserData_around
          (getDocs_answer "users" users [mkWhere (lit "email") (Some e)]) ;;
        fetchUserDocuments_around e (getDocs_answer "documents" documents [])
      else setLocation "/user-portal-login"
  | None => setLocation "/user-portal-login"
  end.

Definition handleLogout : M State unit :=
  sessionStorage_removeItem ;;
  setLocation "/user-portal-login".

Definition csvContent (doc : Document) : jsstring :=
  let headers := [lit "Username"; lit "Email"] in
  let rows := map (fun user => [au_username user; au_email user]) (assignedUsers doc) in
  join [10%N] (join (lit ",") headers :: map (fun row => join (lit ",") row) rows).

Definition handleDownload (doc : Document) : M State unit :=
  emit (Download (documentName doc ++ lit ".csv") (csvContent doc)).

Definition MAX_SIZE : N := 5 * 1024 * 1024.

(** [file] is [e.target.files[0]]. *)
Definition handleFileSelect (file : option File) : M State unit :=
  match file with
  | None => ret tt
  | Some file =>
      if negb (startsWith (file_type file) (lit "image/")) then
        toast "Error" "Please select an image file." true
      else if (MAX_SIZE <? file_size file)%N then
        toast "Error" "Image size should not exceed 5MB." true
      else
        setState (setSelectedFile (Some file))
  end.

Definition type_error : Error :=
  mkError [] (lit "Cannot read properties of null (reading 'id')") None.

(** [error.response?.data?.error?.message || 'Failed to upload image.'] *)
Definition upload_failure (error : Error) : jsstring :=
  match response_message error with
  | Some m => or_else m (lit "Failed to upload image.")
  | None => lit "Failed to upload image."
  end.

Definition handleUploadImage : M State unit :=
  st <- getState ;;
  match selectedFile st with
  | None => toast "Warning" "Please select an image first." true
  | Some file =>
      if (3 <=? List.length (userImages st))%nat
         && match editingImage st with None => true | Some _ => false end
      then
        toast "Warning"
          "Maximum 3 images allowed. Please delete an existing image first." true
      else
        setState (setUploading true) ;;
        try_catch_finally
          (uploadResult <- ImgBB.uploadImageToImgBB file ;;
           now <- (fun w => (Normal (dateNow w), w)) ;;
           let imageData :=
             mkImageRef (r_url uploadResult) (r_display_url uploadResult)
               (r_thumb_url uploadResult) (r_medium_url uploadResult)
               (r_delete_url uploadResult) (r_id uploadResult)
               now (file_name file) in
           match userData st with
           | None => throw type_error
           | Some user =>
               let userDocRef := fst user in
               match editingImage st with
               | Some old =>
                   updateDoc userDocRef (ImagesArrayRemove old) ;;
                   updateDoc userDocRef (ImagesArrayUnion imageData) ;;
                   toast "Success" "Image updated successfully!" false ;;
                   setState (setEditingImage None)
               | None =>
                   updateDoc userDocRef (ImagesArrayUnion imageData) ;;
                   toast "Success" "Image uploaded successfully!" false
               end ;;
               userEmail <- sessionStorage_getItem ;;
               fetchUserData userEmail ;;
               setState (setSelectedFile None)
           end)
          (fun error =>
             console_error "Error uploading image:" ;;
             emit (Toast (lit "Error") (upload_failure error) true))
          (setState (setUploading false))
  end.

Definition handleEditImage (image : ImageRef) : M State unit :=
  setState (setEditingImage (Some image)) ;;
  setState (setSidebarOpen true) ;;
  toast "Edit Mode" "Select a new image to replace the existing one." false.

Definition handleDeleteImage (image : ImageRef) : M State unit :=
  st <- getState ;;
  ok <- confirm ;;
  if negb ok then ret tt
  else
    try_catch
      (match userData st with
       | None => throw type_error
       | Some user =>
           updateDoc (fst user) (ImagesArrayRemove image) ;;
           toast "Success" "Image removed successfully!" false ;;
           (if truthy (delete_url image)
            then emit (ConsoleLog (lit "Manual delete URL:"))
            else ret tt) ;;
           userEmail <- sessionStorage_getItem ;;
           fetchUserData userEmail
       end)
      (fun error =>
         console_error "Error deleting image:" ;;
         toast "Error" "Failed to delete image." true).

Definition handleCloseSidebar : M State unit :=
  setState (setSidebarOpen false) ;;
  setState (setEditingImage None) ;;
  setState (setSelectedFile None).

(** What the user can do on the page. *)
Inductive Event :=
| Mount
| Logout
| DownloadCsv (doc : Document)
| FileSelect (file : option File)
| UploadImage
| EditImage (image : ImageRef)
| DeleteImage (image : ImageRef)
| OpenSidebar
| CloseSidebar.

Definition handle (e : Event) : M State unit :=
  match e with
  | Mount => mount
  | Logout => handleLogout
  | DownloadCsv doc => handleDownload doc
  | FileSelect file => handleFileSelect file
  | UploadImage => handleUploadImage
  | EditImage image => handleEditImage image
  | DeleteImage image => handleDeleteImage image
  | OpenSidebar => setState (setSidebarOpen true)
  | CloseSidebar => handleCloseSidebar
  end.

(** A session: the events handled one after the other. *)
Definition session (es : list Event) (w : World State) : World State :=
  fold_left (fun w e => run (handle e) w) es w.

End UserPortalDashboard.

(* ================================================================== *)
(** * src/pages/DocumentManagement.jsx *)
(* ================================================================== *)

Module DocumentManagement.

(** An entry of the react-select list of approved users. *)
Record UserOption := mkUserOption {
  value : DocId;
  label : jsstring;
  opt_email : jsstring;
  opt_username : jsstring
}.

Record State := mkState {
  approvedUsers : list UserOption;
  documents_ : list (DocId * Document);
  loading : bool
}.

Definition initial : State := mkState [] [] true.

Definition setApprovedUsers (v : list UserOption) (s : State) : State :=
  mkState v (documents_ s) (loading s).
Definition setDocuments (v : list (DocId * Document)) (s : State) : State :=
  mkState (approvedUsers s) v (loading s).
Definition setLoading (v : bool) (s : State) : State :=
  mkState (approvedUsers s) (documents_ s) v.

Definition approvedQuery (email : jsstring) : list Where :=
  [mkWhere (lit "createdBy") (Some email); mkWhere (lit "status") (Some (lit "approved"))].

Definition fetchApprovedUsers : M State unit :=
  user <- useAuth ;;
  match userEmail user with
  | None => ret tt
  | Some user_email =>
      try_catch
        (docs <- getDocs "users" users (approvedQuery user_email) ;;
         let users :=
           map (fun doc =>
                  mkUserOption (fst doc)
                    (username (snd doc) ++ lit " (" ++ email (snd doc) ++ lit ")")
                    (email (snd doc)) (username (snd doc)))
               docs in
         setState (setApprovedUsers users))
        (fun error =>
           console_error "Error fetching approved users:" ;;
           toast "Error" "Failed to load approved users." true)
  end.

Definition documentsQuery (email : jsstring) : list Where :=
  [mkWhere (lit "createdBy") (Some email)].

Definition fetchDocuments : M State unit :=
  user <- useAuth ;;
  match userEmail user with
  | None => ret tt
  | Some user_email =>
      try_catch_finally
        (docs <- getDocs "documents" documents (documentsQuery user_email) ;;
         setState (setDocuments docs))
        (fun error =>
           console_error "Error fetching documents:" ;;
           (if negb (str_eqb (code error) (lit "permission-denied"))
            then toast "Error" "Failed to load documents." true
            else ret tt) ;;
           setState (setDocuments []))
        (setState (setLoading false))
  end.

Definition csvContent (doc : Document) : jsstring :=
  let headers := [lit "Username"; lit "Email"] in
  let rows := map (fun user => [au_username user; au_email user]) (assignedUsers doc) in
  join [10%N] (join (lit ",") headers :: map (fun row => join (lit ",") row) rows).

Definition handleDownload (doc : Document) : M State unit :=
  emit (Download (documentName doc ++ lit ".csv") (csvContent doc)) ;;
  toast "Success" "CSV downloaded successfully!" false.

End DocumentManagement.

(* ================================================================== *)
(** * The clinic page (ClinicManagement) *)
(* ================================================================== *)

Module ClinicManagement.

Record State := mkState {
  clinics_ : list (DocId * Clinic);
  loading : bool
}.

Definition initial : State := mkState [] true.

Definition setClinics (v : list (DocId * Clinic)) (s : State) : State :=
  mkState v (loading s).
Definition setLoading (v : bool) (s : State) : State :=
  mkState (clinics_ s) v.

Definition clinicsQuery (email : jsstring) : list Where :=
  [mkWhere (lit "createdBy") (Some email)].

Definition fetchClinics : M State unit :=
  user <- useAuth ;;
  match userEmail user with
  | None => ret tt
  | Some user_email =>
      try_catch_finally
        (clinicsData <- getDocs "clinics" clinics (clinicsQuery user_email) ;;
         setState (setClinics clinicsData))
        (fun error =>
           console_error "Error fetching clinics:" ;;
           toast "Error" "Failed to load clinics." true)
        (setState (setLoading false))
  end.

End ClinicManagement.

(* ================================================================== *)
(** * src/pages/Dashboard.jsx *)
(* ================================================================== *)

Module Dashboard.

Record Stats := mkStats {
  totalUsers : nat;
  pendingApprovals : nat;
  rejectedUsers : nat;
  totalDocuments : nat
}.

Record State := mkState {
  formData : FormData;
  submitting : bool;
  stats : Stats
}.

Definition emptyForm : FormData := mkFormData [] [] [] [].

Definition initial : State := mkState emptyForm false (mkStats 0 0 0 0).

Definition setFormData (f : FormData -> FormData) (s : State) : State :=
  mkState (f (formData s)) (submitting s) (stats s).
Definition setSubmitting (v : bool) (s : State) : State :=
  mkState (formData s) v (stats s).
Definition setStats (v : Stats) (s : State) : State :=
  mkState (formData s) (submitting s) v.

(** [{ ...prev, [name]: value }] on the four fields of the form. *)
Definition assign (name value : jsstring) (prev : FormData) : FormData :=
  if str_eqb name (lit "username") then
    mkFormData value (f_email prev) (f_role prev) (f_status prev)
  else if str_eqb name (lit "email") then
    mkFormData (f_username prev) value (f_role prev) (f_status prev)
  else if str_eqb name (lit "role") then
    mkFormData (f_username prev) (f_email prev) value (f_status prev)
  else if str_eqb name (lit "status") then
    mkFormData (f_username prev) (f_email prev) (f_role prev) value
  else prev.

Definition handleInputChange (name value : jsstring) : M State unit :=
  setState (setFormData (assign name value)).

Definition handleSelectChange (name value : jsstring) : M State unit :=
  setState (setFormData (assign name value)).

Definition handleCancel : M State unit :=
  setState (setFormData (fun _ => emptyForm)).

(** [user?.email || 'unknown'] *)
Definition owner (user : option AuthUser) : jsstring :=
  match userEmail user with
  | Some e => e
  | None => lit "unknown"
  end.

Definition handleSubmit : M State unit :=
  st <- getState ;;
  setState (setSubmitting true) ;;
  try_catch_finally
    (user <- useAuth ;;
     addDoc (formData st) (owner user) ;;
     toast "Success" "User added successfully!" false ;;
     handleCancel)
    (fun error =>
       console_error "Error adding user:" ;;
       toast "Error" "Failed to add user. Please try again." true)
    (setState (setSubmitting false)).

Definition fetchStats : M State unit :=
  user <- useAuth ;;
  match userEmail user with
  | None => ret tt
  | Some user_email =>
      try_catch
        (usersSnapshot <-
           getDocs "users" users [mkWhere (lit "createdBy") (Some user_email)] ;;
         pendingSnapshot <-
           getDocs "users" users
             [mkWhere (lit "createdBy") (Some user_email);
              mkWhere (lit "status") (Some (lit "pending"))] ;;
         rejectedSnapshot <-
           getDocs "users" users
             [mkWhere (lit "createdBy") (Some user_email);
              mkWhere (lit "status") (Some (lit "rejected"))] ;;
         documentsSnapshot <-
           getDocs "documents" documents [mkWhere (lit "createdBy") (Some user_email)] ;;
         setState (setStats (mkStats (List.length usersSnapshot)
                               (List.length pendingSnapshot)
                               (List.length rejectedSnapshot)
                               (List.length documentsSnapshot))))
        (fun error => console_error "Error fetching stats:")
  end.

(** The items of the two [Select]s of the form. *)
Inductive RoleItem := RoleAdmin | RoleUser.
Inductive StatusItem := StatusPending | StatusApproved | StatusRejected.

Definition roleValue (r : RoleItem) : jsstring :=
  match r with RoleAdmin => lit "admin" | RoleUser => lit "user" end.

Definition statusValue (s : StatusItem) : jsstring :=
  match s with
  | StatusPending => lit "pending"
  | StatusApproved => lit "approved"
  | StatusRejected => lit "rejected"
  end.

(** What the admin can do with the Add New User form: type in the two
    inputs, pick an item of either select, submit, cancel.  The browser
    lets [Submit] through only when the two [required] inputs are filled
    in.  It also checks the shape of the address in the [type="email"]
    input; that check is the browser's and is left out here, so [Submit]
    below passes every submission the browser passes, and some it would
    hold back. *)
Inductive Event :=
| TypeUsername (v : jsstring)
| TypeEmail (v : jsstring)
| PickRole (r : RoleItem)
| PickStatus (s : StatusItem)
| Submit
| Cancel.

Definition handle (e : Event) : M State unit :=
  match e with
  | TypeUsername v => handleInputChange (lit "username") v
  | TypeEmail v => handleInputChange (lit "email") v
  | PickRole r => handleSelectChange (lit "role") (roleValue r)
  | PickStatus s => handleSelectChange (lit "status") (statusValue s)
  | Submit =>
      st <- getState ;;
      if truthy (f_username (formData st)) && truthy (f_email (formData st))
      then handleSubmit else ret tt
  | Cancel => handleCancel
  end.

Definition session (es : list Event) (w : World State) : World State :=
  fold_left (fun w e => run (handle e) w) es w.

End Dashboard.

(* ================================================================== *)
(** * The read paths of the application *)
(* ================================================================== *)

Module ReadPaths.

(** Every handler that queries the store. *)
Inductive ReadPath :=
| FetchUsers                  (* UserManagement.fetchUsers *)
| FetchApprovedUsers          (* DocumentManagement.fetchApprovedUsers *)
| FetchDocuments              (* DocumentManagement.fetchDocuments *)
| FetchClinics                (* ClinicManagement.fetchClinics *)
| FetchStats                  (* Dashboard.fetchStats *)
| PortalLogin                 (* UserPortalLogin.handleSubmit *)
| PortalFetchUserData         (* UserPortalDashboard.fetchUserData *)
| PortalFetchUserDocuments.   (* UserPortalDashboard.fetchUserDocuments *)

(** The paths of the admin console, behind [PrivateRoute]. *)
Definition isAdminPath (p : ReadPath) : bool :=
  match p with
  | FetchUsers | FetchApprovedUsers | FetchDocuments | FetchClinics | FetchStats => true
  | PortalLogin | PortalFetchUserData | PortalFetchUserDocuments => false
  end.

(** A world with an empty log. *)
Definition world {S} (s : Store) (user : option AuthUser) (session : option jsstring)
    (outcomes : list (option Error)) (st : S) : World S :=
  mkWorld s user outcomes [] [] [] session [] [] st.

(** The log of path [p] issued under [identity] against store [s]: the
    signed-in admin's email on the admin paths, the email typed at the
    portal login or kept in session storage on the portal paths. *)
Definition issue (p : ReadPath) (identity : jsstring)
    (outcomes : list (option Error)) (s : Store) : list Effect :=
  let admin := Some (mkAuthUser (Some identity)) in
  match p with
  | FetchUsers =>
      log (run UserManagement.fetchUsers
             (world s admin None outcomes UserManagement.initial))
  | FetchApprovedUsers =>
      log (run DocumentManagement.fetchApprovedUsers
             (world s admin None outcomes DocumentManagement.initial))
  | FetchDocuments =>
      log (run DocumentManagement.fetchDocuments
             (world s admin None outcomes DocumentManagement.initial))
  | FetchClinics =>
      log (run ClinicManagement.fetchClinics
             (world s admin None outcomes ClinicManagement.initial))
  | FetchStats =>
      log (run Dashboard.fetchStats
             (world s admin None outcomes Dashboard.initial))
  | PortalLogin =>
      log (run UserPortalLogin.handleSubmit
             (world s None None outcomes (UserPortalLogin.mkState identity [] false)))
  | PortalFetchUserData =>
      log (run (UserPortalDashboard.fetchUserData (Some identity))
             (world s None (Some identity) outcomes UserPortalDashboard.initial))
  | PortalFetchUserDocuments =>
      log (run (UserPortalDashboard.fetchUserDocuments identity)
             (world s None (Some identity) outcomes UserPortalDashboard.initial))
  end.

End ReadPaths.

(* ================================================================== *)
(** * Vocabulary of the properties *)
(* ================================================================== *)

(** [inv_step I m]: whatever [m] does, and however it completes, it
    leads from a world satisfying [I] to a world satisfying [I]. *)
Definition inv_step {S A} (I : World S -> Prop) (m : M S A) : Prop :=
  forall w, I w -> I (snd (m w)).

(** A store request the environment lets through. *)
Definition lets_through {S} (w : World S) : Prop :=
  hd None (storeOutcomes w) = None.

(** The rows the specification describes: for each assigned user, a
    newline, then the username, a comma, the email. *)
Definition csv_rows (l : list AssignedUser) : jsstring :=
  flat_map (fun u => [10%N] ++ au_username u ++ lit "," ++ au_email u) l.

(** The [images] array of the account stored under [id]. *)
Definition imagesOf (id : DocId) (s : Store) : option (list ImageRef) :=
  option_map (fun d => images (snd d)) (find (fun d => N.eqb (fst d) id) (users s)).

(** The element [handleUploadImage] builds from the host's answer. *)
Definition newImage (data : ImgBBData) (now : jsstring) (file : File) : ImageRef :=
  mkImageRef (r_url data) (r_display_url data) (r_thumb_url data)
    (r_medium_url data) (r_delete_url data) (r_id data) now (file_name file).

Definition isToast (e : Effect) : bool :=
  match e with Toast _ _ _ => true | _ => false end.

(** The notices a log shows. *)
Definition toasts (l : list Effect) : list Effect := filter isToast l.

(** Everything the store has returned so far belongs to [owner]. *)
Definition only_own {S} (owner : jsstring) (w : World S) : Prop :=
  Forall (eq (Some owner)) (returnedOwners (log w)).

(** The tenants of a caller.  An admin is their own tenant: on an admin
    path the only tenant of [identity] is [identity].  A portal user
    belongs to the admin who created their account: on a portal path the
    tenants of [identity] are the creators of the accounts stored under
    that address. *)
Definition tenantsOf (p : ReadPaths.ReadPath) (identity : jsstring) (s : Store)
  : list jsstring :=
  if ReadPaths.isAdminPath p then [identity]
  else map (fun d => createdBy (snd d))
         (filter (fun d => str_eqb (email (snd d)) identity) (users s)).

(** The claim on reads as the specification states it: to a caller who has a tenant
    (an admin, or a portal address with an account) no read path returns
    a record from outside that tenant.  On the admin paths this reads: a
    record created by admin [A] is never returned to a query issued as
    another admin [B]. *)
Definition owner_scoped_reads : Prop :=
  forall (p : ReadPaths.ReadPath) (A B : jsstring)
         (outcomes : list (option Error)) (s : Store),
    tenantsOf p B s <> [] ->
    ~ In A (tenantsOf p B s) ->
    ~ In (Some A) (returnedOwners (ReadPaths.issue p B outcomes s)).

Section BulkVocabulary.
Variables action reason : jsstring.
Variable selected : list DocId.

(** What the transition leaves in an account it updated. *)
Definition settled (a' : Account) : Prop :=
  status a' = action
  /\ if str_eqb action (lit "rejected")
     then rejectionReason a' = Some reason /\ (exists t, rejectedAt a' = Some t)
     else rejectionReason a' = None /\ rejectedAt a' = None.

(** The transition touches nothing else. *)
Definition same_profile (a a' : Account) : Prop :=
  username a' = username a /\ email a' = email a /\ role a' = role a
  /\ createdBy a' = createdBy a /\ createdAt a' = createdAt a
  /\ images a' = images a.

(** A document before and after the bulk action: left as it was, or a
    selected one, updated. *)
Definition transition (d d' : DocId * Account) : Prop :=
  fst d' = fst d
  /\ (snd d' = snd d
      \/ (In (fst d) selected /\ same_profile (snd d) (snd d') /\ settled (snd d'))).

(** An action and a selection that pass the three guards of the handler. *)
Definition passes_guards : Prop :=
  truthy action = true
  /\ selected <> []
  /\ (str_eqb action (lit "rejected") = true -> truthy (trim reason) = true).

End BulkVocabulary.

Section LoginVocabulary.
Import Regex UserPortalLogin.

(** A character allowed in the three parts of an address: neither
    white space nor [@]. *)
Definition part_char (c : N) : Prop := isWhiteSpace c = false /\ c <> 64%N.

(** The query the login issues for an address. *)
Definition loginQuery (mail : jsstring) : list Where :=
  [mkWhere (lit "email") (Some (trim mail))].

(** The accounts the store returns to the login, in order. *)
Definition found (w : World State) : list (DocId * Account) :=
  query (users (db w)) (loginQuery (email_ (ui w))).

(** What a submission leaves on the page, in session storage and in the
    location, from the address typed, the fate of the store request and
    the first account returned. *)
Definition loginOutcome (st : State) (session : option jsstring) (loc : jsstring)
    (fate : option Error) (first : option (DocId * Account))
  : State * option jsstring * jsstring :=
  let mail := email_ st in
  if negb (truthy (trim mail)) then
    (mkState mail (lit "Please enter your email address") (loading st), session, loc)
  else if negb (test emailRegex mail) then
    (mkState mail (lit "Please enter a valid email address") (loading st), session, loc)
  else
    match fate, first with
    | Some err, _ =>
        (mkState mail (or_else (message err) (lit "Failed to access user portal")) false,
         session, loc)
    | None, None =>
        (mkState mail (lit "Email not found. Please contact your administrator.") false,
         session, loc)
    | None, Some d =>
        if negb (str_eqb (status (snd d)) (lit "approved"))
        then (mkState mail (denial (status (snd d))) false, session, loc)
        else (mkState mail [] false, Some (trim mail), lit "/user-portal-dashboard")
    end.

End LoginVocabulary.

Section UploadVocabulary.
Import UserPortalDashboard.

(** The files sent to the image host, oldest first. *)
Definition posts (l : list Effect) : list File :=
  flat_map (fun e => match e with HttpPost _ f => [f] | _ => [] end) l.

(** A file that passes both checks of [handleFileSelect]. *)
Definition acceptable (f : File) : Prop :=
  startsWith (file_type f) (lit "image/") = true
  /\ (file_size f <= UserPortalDashboard.MAX_SIZE)%N.

(** Only acceptable files have been sent, and only an acceptable file
    can be waiting in [selectedFile]. *)
Definition upload_inv (w : World State) : Prop :=
  Forall acceptable (posts (log w))
  /\ forall g, selectedFile (ui w) = Some g -> acceptable g.

(** The account the page writes to holds [n] images or more. *)
Definition accountHolds (n : nat) (w : World State) : Prop :=
  exists id acc imgs,
    userData (ui w) = Some (id, acc)
    /\ imagesOf id (db w) = Some imgs
    /\ (n <= List.length imgs)%nat.

(** The claim on the fourth image as the specification states it: at any point of a
    visit of the portal, an upload outside the replace path while the
    account holds three images sends nothing to the host. *)
Definition upload_cap_on_account : Prop :=
  forall (w0 : World State) (es : list Event),
    ui w0 = initial ->
    let w := session (Mount :: es) w0 in
    accountHolds 3 w ->
    editingImage (ui w) = None ->
    posts (log (run handleUploadImage w)) = posts (log w).

(** The claim on deletion as the specification states it: deleting the entry found
    at one position of the array removes that entry alone. *)
Definition delete_removes_exactly_one : Prop :=
  forall (w : World State) (image : ImageRef) (id : DocId) (acc : Account)
         (l1 l2 : list ImageRef) (more : list bool),
    userData (ui w) = Some (id, acc) ->
    imagesOf id (db w) = Some (l1 ++ image :: l2) ->
    confirmAnswers w = true :: more ->
    lets_through w ->
    imagesOf id (db (run (handleDeleteImage image) w)) = Some (l1 ++ l2).

End UploadVocabulary.

Section FormVocabulary.
Import Dashboard.

(** The items of the two selects of the Add New User form. *)
Definition role_values : list jsstring := [lit "admin"; lit "user"].
Definition status_values : list jsstring := [lit "pending"; lit "approved"; lit "rejected"].

(** What the form can hold: each select on its placeholder (the empty
    string) or on one of its items. *)
Definition form_ok (f : FormData) : Prop :=
  In (f_role f) ([] :: role_values) /\ In (f_status f) ([] :: status_values).

(** An account as the form creates it for the signed-in admin [u]. *)
Definition created_by_form (u : option AuthUser) (a : Account) : Prop :=
  In (role a) ([] :: role_values)
  /\ In (status a) ([] :: status_values)
  /\ createdBy a = owner u
  /\ rejectionReason a = None /\ rejectedAt a = None /\ images a = [].

(** The admin stays signed in as [u], the form holds placeholder or item
    values, and every account of the store was there before or was
    created by the form for [u]. *)
Definition dashboard_inv (u : option AuthUser) (before : list (DocId * Account))
    (w : World State) : Prop :=
  currentUser w = u
  /\ form_ok (formData (ui w))
  /\ Forall (fun d => In d before \/ created_by_form u (snd d)) (users (db w)).

End FormVocabulary.

(* ================================================================== *)
(** * Example worlds *)
(* ================================================================== *)

(** One tenant: the admin a@x.com, and Bob, whose account that admin
    created. *)

Module DeleteImageExample.
Import UserPortalDashboard.

Definition pic : ImageRef :=
  mkImageRef (lit "https://i.ibb.co/a.png") (lit "https://i.ibb.co/a.png")
    (lit "https://i.ibb.co/t/a.png") (lit "https://i.ibb.co/m/a.png")
    (lit "https://ibb.co/del/a") (lit "a1") (lit "2024-01-01T00:00:00.000Z")
    (lit "a.png").

Definition other : ImageRef :=
  mkImageRef (lit "https://i.ibb.co/b.png") (lit "https://i.ibb.co/b.png")
    (lit "https://i.ibb.co/t/b.png") (lit "https://i.ibb.co/m/b.png")
    (lit "https://ibb.co/del/b") (lit "b2") (lit "2024-01-02T00:00:00.000Z")
    (lit "b.png").

Definition account (imgs : list ImageRef) : Account :=
  mkAccount (lit "bob") (lit "b@x.com") (lit "user") (lit "approved")
    None None (lit "a@x.com") 1%N imgs.

(** The portal of bob, whose account holds [imgs]; he will confirm. *)
Definition portal (imgs : list ImageRef) : World State :=
  mkWorld (mkStore [(7%N, account imgs)] [] [] 10%N 8%N) None [] [] [true] []
    (Some (lit "b@x.com")) (lit "/user-portal-dashboard") []
    (mkState (Some (7%N, account imgs)) [] false false None false imgs None).

End DeleteImageExample.

Module ReplaceExample.
Import UserPortalDashboard.

Definition photo : File := mkFile (lit "c.png") (lit "image/png") 2048.

Definition answer : ImgBBData :=
  mkImgBBData (lit "https://i.ibb.co/c.png") (lit "https://i.ibb.co/c.png")
    (lit "https://ibb.co/del/c") (lit "https://i.ibb.co/t/c.png")
    (lit "https://i.ibb.co/m/c.png") (lit "c3").

Definition held : list ImageRef := [DeleteImageExample.other; DeleteImageExample.pic].

(** Bob replaces [pic] by [photo]; the host will accept the upload. *)
Definition portal : World State :=
  mkWorld (mkStore [(7%N, DeleteImageExample.account held)] [] [] 10%N 8%N)
    None [] [HostAnswers true answer] [] (lit "2024-02-01T00:00:00.000Z")
    (Some (lit "b@x.com")) (lit "/user-portal-dashboard") []
    (mkState (Some (7%N, DeleteImageExample.account held)) [] false true
       (Some photo) false held (Some DeleteImageExample.pic)).

End ReplaceExample.

Module UploadExample.
Import UserPortalDashboard.

(** A 6 MB picture. *)
Definition big : File := mkFile (lit "big.png") (lit "image/png") (6 * 1024 * 1024).

Definition three : list ImageRef :=
  [DeleteImageExample.pic; DeleteImageExample.other;
   newImage ReplaceExample.answer (lit "2024-02-01T00:00:00.000Z") ReplaceExample.photo].

(** Bob's portal, his account holding three images, a picture chosen,
    no image being edited. *)
Definition full : World State :=
  mkWorld (mkStore [(7%N, DeleteImageExample.account three)] [] [] 10%N 8%N)
    None [] [HostAnswers true ReplaceExample.answer] [] (lit "2024-03-01T00:00:00.000Z")
    (Some (lit "b@x.com")) (lit "/user-portal-dashboard") []
    (mkState (Some (7%N, DeleteImageExample.account three)) [] false true
       (Some ReplaceExample.photo) false three None).

End UploadExample.

Module StaleCopyExample.
Import UserPortalDashboard.

Definition unavailable : Error :=
  mkError (lit "unavailable") (lit "The service is currently unavailable.") None.

Definition fourth : File := mkFile (lit "d.png") (lit "image/png") 4096.

Definition answerFourth : ImgBBData :=
  mkImgBBData (lit "https://i.ibb.co/d.png") (lit "https://i.ibb.co/d.png")
    (lit "https://ibb.co/del/d") (lit "https://i.ibb.co/t/d.png")
    (lit "https://i.ibb.co/m/d.png") (lit "d4").

(** Bob arrives at the portal dashboard; his account holds two images.
    The store answers the two requests of the mount and accepts the
    write of the first upload, then fails the refresh that follows it;
    after that it answers again.  The host accepts both uploads. *)
Definition arrival : World State :=
  mkWorld (mkStore [(7%N, DeleteImageExample.account ReplaceExample.held)] [] [] 10%N 8%N)
    None [None; None; None; Some unavailable]
    [HostAnswers true ReplaceExample.answer; HostAnswers true answerFourth] []
    (lit "2024-03-01T00:00:00.000Z")
    (Some (lit "b@x.com")) (lit "/user-portal-dashboard") [] initial.

(** Bob opens the sidebar and uploads a third picture, then chooses
    another file. *)
Definition visit : list Event :=
  [OpenSidebar; FileSelect (Some ReplaceExample.photo); UploadImage;
   FileSelect (Some fourth)].

End StaleCopyExample.

Module FetchFailureExample.

Definition denied : Error :=
  mkError (lit "permission-denied") (lit "Missing or insufficient permissions.") None.

Definition admin : option AuthUser := Some (mkAuthUser (Some (lit "a@x.com"))).

Definition report : Document :=
  mkDocument (lit "report") [mkAssignedUser 7%N (lit "Bob") (lit "b@x.com")]
    (lit "a@x.com") 3%N.

Definition documentPage : World DocumentManagement.State :=
  mkWorld (mkStore [] [(4%N, report)] [] 10%N 8%N) admin [Some denied] [] [] []
    None (lit "/document-management") []
    (DocumentManagement.mkState [] [(4%N, report)] false).

Definition userPage : World UserManagement.State :=
  mkWorld (mkStore [] [(4%N, report)] [] 10%N 8%N) admin [Some denied] [] [] []
    None (lit "/user-management") []
    (UserManagement.mkState [(7%N, DeleteImageExample.account [])] false [] [] [] false).

Definition clinicPage : World ClinicManagement.State :=
  mkWorld (mkStore [] [(4%N, report)] [] 10%N 8%N) admin [Some denied] [] [] []
    None (lit "/clinic-management") []
    (ClinicManagement.mkState [] false).

End FetchFailureExample.

Module OwnerScopingExample.

Definition alice : jsstring := lit "a@x.com".
Definition bob : jsstring := lit "b@x.com".
Definition zoe : jsstring := lit "z@x.com".

(** Carol's account, created by the admin z@x.com. *)
Definition carol : Account :=
  mkAccount (lit "carol") (lit "c@x.com") (lit "user") (lit "approved")
    None None (lit "z@x.com") 2%N [].

(** A document of the admin z@x.com, assigned to Carol alone. *)
Definition audit : Document :=
  mkDocument (lit "audit") [mkAssignedUser 9%N (lit "carol") (lit "c@x.com")]
    (lit "z@x.com") 5%N.

(** Two tenants.  The admin a@x.com created Bob's account and a document
    assigned to Bob; the admin z@x.com created Carol's account and a
    document assigned to Carol. *)
Definition twoTenants : Store :=
  mkStore [(7%N, DeleteImageExample.account []); (9%N, carol)]
    [(4%N, FetchFailureExample.report); (5%N, audit)] [] 10%N 12%N.

End OwnerScopingExample.

Module BulkUpdateExample.
Import UserManagement.

Definition pendingBob : Account :=
  mkAccount (lit "bob") (lit "b@x.com") (lit "user") (lit "pending")
    None None (lit "a@x.com") 1%N [].

(** The admin has ticked Bob and typed a reason for rejecting him. *)
Definition page : World State :=
  mkWorld (mkStore [(7%N, pendingBob)] [] [] 10%N 8%N)
    (Some (mkAuthUser (Some (lit "a@x.com")))) [] [] [] []
    None (lit "/user-management") []
    (mkState [(7%N, pendingBob)] false [7%N] (lit "rejected") (lit "duplicate") false).

End BulkUpdateExample.

Module LoginExample.
Import UserPortalLogin.

Definition account (st : string) : Account :=
  mkAccount (lit "bob") (lit "b@x.com") (lit "user") (lit st)
    None None (lit "a@x.com") 1%N [].

(** The login page with Bob's address typed in, against a store holding
    the given accounts. *)
Definition page (accounts : list (DocId * Account)) : World State :=
  mkWorld (mkStore accounts [] [] 10%N 8%N) None [] [] [] []
    None (lit "/user-portal-login") []
    (mkState (lit "b@x.com") [] false).

End LoginExample.

Module AddUserExample.
Import Dashboard.

(** Admin a@x.com on a fresh dashboard, the store empty. *)
Definition fresh : World State :=
  mkWorld (mkStore [] [] [] 10%N 8%N)
    (Some (mkAuthUser (Some (lit "a@x.com")))) [] [] [] []
    None (lit "/") [] initial.

(** The admin fills in the two inputs and submits, leaving both selects
    on their placeholder. *)
Definition hasty : list Event :=
  [TypeUsername (lit "bob"); TypeEmail (lit "b@x.com"); Submit].

(** The admin also picks a role and a status. *)
Definition careful : list Event :=
  [TypeUsername (lit "bob"); TypeEmail (lit "b@x.com");
   PickRole RoleUser; PickStatus StatusPending; Submit].

End AddUserExample.

(* ================================================================== *)
(** * Facts about strings, arrays and queries *)
(* ================================================================== *)

Lemma str_eqb_eq (a b : jsstring) : str_eqb a b = true <-> a = b.
Proof.
  revert b; induction a as [|x a IH]; intros [|y b]; simpl;
    try (split; [discriminate | discriminate]); try tauto.
  rewrite andb_true_iff, N.eqb_eq, IH.
  split; [intros [-> ->]; reflexivity | intros H; inversion H; auto].
Qed.

Lemma str_eqb_refl (a : jsstring) : str_eqb a a = true.
Proof. apply str_eqb_eq; reflexivity. Qed.

Lemma ImageRef_eqb_eq (a b : ImageRef) : ImageRef_eqb a b = true <-> a = b.
Proof.
  unfold ImageRef_eqb. rewrite !andb_true_iff, !str_eqb_eq.
  destruct a, b; simpl. split.
  - intros [[[[[[[-> ->] ->] ->] ->] ->] ->] ->]. reflexivity.
  - intros H; inversion H; subst; repeat split.
Qed.

Lemma ImageRef_eqb_refl (a : ImageRef) : ImageRef_eqb a a = true.
Proof. apply ImageRef_eqb_eq; reflexivity. Qed.

Lemma includes_middle (pre s post : jsstring) : includes (pre ++ s ++ post) s.
Proof. exists pre, post; reflexivity. Qed.

(** [join] puts the separator in front of every element but the first. *)
Lemma join_cons {A} (sep x : jsstring) (f : A -> jsstring) (l : list A) :
  join sep (x :: map f l) = x ++ flat_map (fun y => sep ++ f y) l.
Proof.
  revert x; induction l as [|y l IH]; intros x.
  - simpl. now rewrite app_nil_r.
  - change (join sep (x :: map f (y :: l)))
      with (x ++ sep ++ join sep (f y :: map f l)).
    rewrite IH. simpl. now rewrite <- app_assoc.
Qed.

(* ================================================================== *)
(** * CSV export *)
(* ================================================================== *)

Lemma csvContent_admin (doc : Document) :
  DocumentManagement.csvContent doc
  = lit "Username,Email" ++ csv_rows (assignedUsers doc).
Proof.
  unfold DocumentManagement.csvContent, csv_rows.
  rewrite map_map, join_cons. reflexivity.
Qed.

Lemma csvContent_portal (doc : Document) :
  UserPortalDashboard.csvContent doc
  = lit "Username,Email" ++ csv_rows (assignedUsers doc).
Proof.
  unfold UserPortalDashboard.csvContent, csv_rows.
  rewrite map_map, join_cons. reflexivity.
Qed.

(** C5. Both download handlers offer, under the name
    [<documentName>.csv], exactly the header row [Username,Email] followed
    for each assigned user, in order, by a newline and the username and
    email joined with a comma, nothing escaped; for the users Bob and Amy
    of the specification the content is
    [Username,Email\nBob,b@x.com\nAmy,a@y.com]. *)
Theorem csv_export_exact (doc : Document) :
  (forall w : World DocumentManagement.State,
      log (run (DocumentManagement.handleDownload doc) w)
      = log w ++
        [Download (documentName doc ++ lit ".csv")
           (lit "Username,Email" ++ csv_rows (assignedUsers doc));
         Toast (lit "Success") (lit "CSV downloaded successfully!") false])
  /\ (forall w : World UserPortalDashboard.State,
      log (run (UserPortalDashboard.handleDownload doc) w)
      = log w ++
        [Download (documentName doc ++ lit ".csv")
           (lit "Username,Email" ++ csv_rows (assignedUsers doc))])
  /\ (forall (id1 id2 : DocId) (name owner : jsstring) (t : Timestamp),
      let bob_amy :=
        mkDocument name
          [mkAssignedUser id1 (lit "Bob") (lit "b@x.com");
           mkAssignedUser id2 (lit "Amy") (lit "a@y.com")] owner t in
      let expected :=
        lit "Username,Email" ++ [10%N] ++ lit "Bob,b@x.com" ++ [10%N] ++ lit "Amy,a@y.com" in
      DocumentManagement.csvContent bob_amy = expected
      /\ UserPortalDashboard.csvContent bob_amy = expected).
Proof.
  split; [| split].
  - intros w. unfold DocumentManagement.handleDownload, run, bind, toast, emit.
    simpl. rewrite csvContent_admin, <- app_assoc. reflexivity.
  - intros w. unfold UserPortalDashboard.handleDownload, run, emit.
    simpl. rewrite csvContent_portal. reflexivity.
  - intros id1 id2 name owner t. split; reflexivity.
Qed.

(* ================================================================== *)
(** * Image arrays: [arrayRemove] and [arrayUnion] *)
(* ================================================================== *)

Section ArrayFacts.
Variable x : ImageRef.

Lemma arrayRemove_In (y : ImageRef) (l : list ImageRef) :
  In y (arrayRemove x l) <-> In y l /\ y <> x.
Proof.
  unfold arrayRemove. rewrite filter_In, negb_true_iff.
  split; intros [H1 H2]; split; auto.
  - intros E. apply ImageRef_eqb_eq in E. congruence.
  - destruct (ImageRef_eqb y x) eqn:E; auto.
    apply ImageRef_eqb_eq in E. contradiction.
Qed.

Lemma arrayRemove_absent (l : list ImageRef) :
  ~ In x l -> arrayRemove x l = l.
Proof.
  induction l as [|y l IH]; simpl; intros H; auto.
  destruct (ImageRef_eqb y x) eqn:E; simpl.
  - apply ImageRef_eqb_eq in E. subst. exfalso; apply H; now left.
  - f_equal. apply IH. tauto.
Qed.

Lemma arrayRemove_app (l1 l2 : list ImageRef) :
  arrayRemove x (l1 ++ l2) = arrayRemove x l1 ++ arrayRemove x l2.
Proof. apply filter_app. Qed.

(** When the array holds [x] once, exactly that entry goes. *)
Lemma arrayRemove_once (l1 l2 : list ImageRef) :
  ~ In x l1 -> ~ In x l2 -> arrayRemove x (l1 ++ x :: l2) = l1 ++ l2.
Proof.
  intros H1 H2. rewrite arrayRemove_app. simpl.
  rewrite ImageRef_eqb_refl. simpl.
  now rewrite !arrayRemove_absent.
Qed.


Lemma existsb_ImageRef (l : list ImageRef) :
  existsb (fun y => ImageRef_eqb y x) l = true <-> In x l.
Proof.
  rewrite existsb_exists. split.
  - intros (y & Hy & E). apply ImageRef_eqb_eq in E. now subst.
  - intros H. exists x. split; auto. apply ImageRef_eqb_refl.
Qed.

(** [arrayUnion] never creates a duplicate. *)
Lemma arrayUnion_NoDup (l : list ImageRef) :
  NoDup l -> NoDup (arrayUnion x l).
Proof.
  intros H. unfold arrayUnion.
  destruct (existsb (fun y => ImageRef_eqb y x) l) eqn:E; auto.
  apply NoDup_app; auto.
  - repeat constructor. intros [].
  - intros y Hy [<-|[]].
    apply existsb_ImageRef in Hy. congruence.
Qed.

Lemma arrayRemove_NoDup (l : list ImageRef) :
  NoDup l -> NoDup (arrayRemove x l).
Proof. apply NoDup_filter. Qed.

End ArrayFacts.

(** Patching one document of [users]. *)
Lemma imagesOf_patch_same (id : DocId) (p : UserPatch) (s : Store)
    (imgs : list ImageRef) :
  imagesOf id s = Some imgs ->
  imagesOf id (patchUsers id p s)
  = Some (match p with
          | StatusPatch _ _ _ => imgs
          | ImagesArrayRemove img => arrayRemove img imgs
          | ImagesArrayUnion img => arrayUnion img imgs
          end).
Proof.
  unfold imagesOf, patchUsers. simpl.
  generalize (serverTime s). intros t.
  induction (users s) as [|[i a] l IH]; simpl; [discriminate|].
  destruct (N.eqb i id) eqn:E; simpl.
  - rewrite E. simpl. intros H. inversion H; subst.
    destruct p; reflexivity.
  - rewrite E. exact IH.
Qed.

Lemma imagesOf_patch_other (id id' : DocId) (p : UserPatch) (s : Store) :
  id' <> id -> imagesOf id' (patchUsers id p s) = imagesOf id' s.
Proof.
  intros Hne. unfold imagesOf, patchUsers. simpl.
  generalize (serverTime s). intros t.
  induction (users s) as [|[i a] l IH]; simpl; auto.
  destruct (N.eqb i id) eqn:E; simpl.
  - apply N.eqb_eq in E. subst i.
    destruct (N.eqb id id') eqn:E'; [apply N.eqb_eq in E'; congruence|].
    exact IH.
  - destruct (N.eqb i id'); auto.
Qed.

Lemma imagesOf_exists (id : DocId) (s : Store) (imgs : list ImageRef) :
  imagesOf id s = Some imgs ->
  existsb (fun d => N.eqb (fst d) id) (users s) = true.
Proof.
  unfold imagesOf.
  destruct (find (fun d => N.eqb (fst d) id) (users s)) as [d|] eqn:E; [|discriminate].
  intros _. apply find_some in E. apply existsb_exists. exists d. exact E.
Qed.

(* ================================================================== *)
(** * Invariants of handlers *)
(* ================================================================== *)

Section InvariantRules.
Context {S : Type} (I : World S -> Prop).

Lemma inv_ret {A} (a : A) : inv_step I (ret a).
Proof. intros w H; exact H. Qed.

Lemma inv_throw {A} (e : Error) : inv_step I (@throw S A e).
Proof. intros w H; exact H. Qed.

Lemma inv_bind {A B} (m : M S A) (k : A -> M S B) :
  inv_step I m -> (forall a, inv_step I (k a)) -> inv_step I (bind m k).
Proof.
  intros Hm Hk w H. unfold bind. specialize (Hm w H).
  destruct (m w) as [[a|e] w1]; simpl in *; auto. now apply Hk.
Qed.

Lemma inv_try_catch_finally {A} (body : M S A) (handler : Error -> M S A)
    (fin : M S unit) :
  inv_step I body -> (forall e, inv_step I (handler e)) -> inv_step I fin ->
  inv_step I (try_catch_finally body handler fin).
Proof.
  intros Hb Hh Hf w H. unfold try_catch_finally. specialize (Hb w H).
  destruct (body w) as [[a|e] w1]; simpl in *.
  - specialize (Hf w1 Hb). destruct (fin w1) as [[u|e] w2]; exact Hf.
  - specialize (Hh e w1 Hb). destruct (handler e w1) as [r w2]. simpl in *.
    specialize (Hf w2 Hh). destruct (fin w2) as [[u|e'] w3]; exact Hf.
Qed.

Lemma inv_try_catch {A} (body : M S A) (handler : Error -> M S A) :
  inv_step I body -> (forall e, inv_step I (handler e)) ->
  inv_step I (try_catch body handler).
Proof.
  intros Hb Hh w H. unfold try_catch. specialize (Hb w H).
  destruct (body w) as [[a|e] w1]; simpl in *; auto. now apply Hh.
Qed.

Lemma inv_promiseAll (ps : list (M S unit)) :
  Forall (inv_step I) ps -> inv_step I (promiseAll ps).
Proof.
  induction 1 as [|p ps Hp _ IH]; intros w H; simpl; auto.
  specialize (Hp w H). destruct (p w) as [[u|e] w1]; simpl in *; now apply IH.
Qed.

Lemma inv_emit (e : Effect) :
  (forall w, I w -> I (set_log (log w ++ [e]) w)) -> inv_step I (emit e).
Proof. intros H w Hw. now apply H. Qed.

Lemma inv_setState (f : S -> S) :
  (forall w, I w -> I (set_ui (f (ui w)) w)) -> inv_step I (setState f).
Proof. intros H w Hw. now apply H. Qed.

Lemma inv_nextOutcome :
  (forall o w, I w -> I (set_storeOutcomes o w)) -> inv_step I nextOutcome.
Proof.
  intros H w Hw. unfold nextOutcome.
  destruct (storeOutcomes w) as [|[e|] rest]; simpl; auto.
Qed.

Lemma inv_confirm :
  (forall c w, I w -> I (set_confirmAnswers c w)) -> inv_step I confirm.
Proof.
  intros H w Hw. unfold confirm.
  destruct (confirmAnswers w) as [|b rest]; simpl; auto.
Qed.

Lemma inv_host_reply :
  (forall h w, I w -> I (set_hostReplies h w)) ->
  inv_step I (fun w : World S =>
     match hostReplies w with
     | HostAnswers success data :: rest =>
         (Normal (success, data), set_hostReplies rest w)
     | HostFails e :: rest => (Throw e, set_hostReplies rest w)
     | [] => (Throw ImgBB.network_error, w)
     end).
Proof.
  intros H w Hw. destruct (hostReplies w) as [|[e|b d] rest]; simpl; auto.
Qed.

Lemma inv_session (v : option jsstring) :
  (forall w, I w -> I (set_sessionStorage v w)) ->
  inv_step I (fun w : World S => (Normal tt, set_sessionStorage v w)).
Proof. intros H w Hw. now apply H. Qed.

Lemma inv_setLocation (path : string) :
  (forall l w, I w -> I (set_location l w)) -> inv_step I (setLocation path).
Proof. intros H w Hw. now apply H. Qed.

(** Reading the world changes nothing. *)
Lemma inv_read {A} (f : World S -> A) :
  inv_step I (fun w => (Normal (f w), w)).
Proof. intros w H; exact H. Qed.

Lemma inv_commit_update (id : DocId) (p : UserPatch) :
  (forall w, I w -> I (set_db (patchUsers id p (db w)) w)) ->
  inv_step I (fun w : World S =>
     if existsb (fun d => N.eqb (fst d) id) (users (db w))
     then (Normal tt, set_db (patchUsers id p (db w)) w)
     else (Throw not_found, w)).
Proof.
  intros H w Hw.
  destruct (existsb (fun d => N.eqb (fst d) id) (users (db w))); simpl; auto.
Qed.

Lemma inv_commit_insert (data : FormData) (owner : jsstring) :
  (forall w, I w -> I (set_db (insertUser data owner (db w)) w)) ->
  inv_step I (fun w : World S =>
     (Normal (nextId (db w)), set_db (insertUser data owner (db w)) w)).
Proof. intros H w Hw. now apply H. Qed.

End InvariantRules.

(** Walk through a handler, leaving the side conditions of the
    primitives that touch what [I] talks about to [side]. *)
Ltac inv_walk_pre pre side :=
  repeat first
    [ pre
    | apply inv_ret
    | apply inv_throw
    | apply inv_read
    | apply inv_bind; [| intros ?]
    | apply inv_try_catch_finally; [| intros ? |]
    | apply inv_try_catch; [| intros ?]
    | apply inv_emit; side
    | apply inv_setState; side
    | apply inv_nextOutcome; side
    | apply inv_confirm; side
    | apply inv_host_reply; side
    | apply inv_session; side
    | apply inv_setLocation; side
    | apply inv_commit_update; side
    | apply inv_commit_insert; side
    | match goal with
      | |- inv_step _ (match ?x with _ => _ end) => destruct x
      end ].

Ltac inv_walk side := inv_walk_pre fail side.

Ltac frame_side := intros; cbn in *; eauto.

(* ================================================================== *)
(** * Stepping through a handler *)
(* ================================================================== *)

Section Stepping.
Context {S : Type}.

Lemma bind_normal {A B} (m : M S A) (k : A -> M S B) (w w1 : World S) (a : A) :
  m w = (Normal a, w1) -> bind m k w = k a w1.
Proof. intros H. unfold bind. now rewrite H. Qed.


Lemma try_catch_after {A} (I : World S -> Prop) (body : M S A)
    (handler : Error -> M S A) (w : World S) :
  I (snd (body w)) -> (forall e, inv_step I (handler e)) ->
  I (snd (try_catch body handler w)).
Proof.
  intros Hb Hh. unfold try_catch.
  destruct (body w) as [[a|e] w1]; simpl in *; auto. now apply Hh.
Qed.

Lemma try_catch_finally_after {A} (I : World S -> Prop) (body : M S A)
    (handler : Error -> M S A) (fin : M S unit) (w : World S) :
  I (snd (body w)) -> (forall e, inv_step I (handler e)) -> inv_step I fin ->
  I (snd (try_catch_finally body handler fin w)).
Proof.
  intros Hb Hh Hf. unfold try_catch_finally.
  destruct (body w) as [[a|e] w1]; simpl in *.
  - specialize (Hf w1 Hb). destruct (fin w1) as [[u|e] w2]; exact Hf.
  - specialize (Hh e w1 Hb). destruct (handler e w1) as [r w2]. simpl in *.
    specialize (Hf w2 Hh). destruct (fin w2) as [[u|e'] w3]; exact Hf.
Qed.

(** An [updateDoc] of an existing document that the store accepts. *)
Lemma updateDoc_ok (id : DocId) (p : UserPatch) (w : World S) :
  lets_through w ->
  existsb (fun d => N.eqb (fst d) id) (users (db w)) = true ->
  exists w1,
    updateDoc id p w = (Normal tt, w1)
    /\ db w1 = patchUsers id p (db w)
    /\ log w1 = log w ++ [UpdateDoc (lit "users") id p]
    /\ storeOutcomes w1 = tl (storeOutcomes w)
    /\ ui w1 = ui w
    /\ sessionStorage w1 = sessionStorage w
    /\ hostReplies w1 = hostReplies w.
Proof.
  unfold lets_through. intros Hout Hex.
  unfold updateDoc, bind, emit, nextOutcome. simpl.
  destruct (storeOutcomes w) as [|[e|] rest] eqn:E; simpl in *; try discriminate;
    rewrite Hex; eexists; repeat split; simpl; auto.
Qed.



End Stepping.

(* ================================================================== *)
(** * Deleting an image *)
(* ================================================================== *)

Section DeleteImage.
Import UserPortalDashboard.

Lemma handleDeleteImage_db (w : World State) (image : ImageRef) (id : DocId)
    (acc : Account) (imgs : list ImageRef) (more : list bool) :
  userData (ui w) = Some (id, acc) ->
  imagesOf id (db w) = Some imgs ->
  confirmAnswers w = true :: more ->
  lets_through w ->
  db (run (handleDeleteImage image) w)
  = patchUsers id (ImagesArrayRemove image) (db w).
Proof.
  intros Hu Hi Hc Ho.
  unfold run, handleDeleteImage.
  unfold bind at 1 2. unfold getState, confirm. rewrite Hc, Hu. simpl negb. cbv iota.
  set (w0 := set_confirmAnswers more w).
  destruct (updateDoc_ok (fst (id, acc)) (ImagesArrayRemove image) w0)
    as (w1 & Hrun & Hdb & _).
  { exact Ho. }
  { simpl. eapply imagesOf_exists; eauto. }
  apply (try_catch_after (fun w' => db w' = patchUsers id (ImagesArrayRemove image) (db w))).
  - rewrite (bind_normal _ _ _ _ _ Hrun).
    assert (H1 : db w1 = patchUsers id (ImagesArrayRemove image) (db w)) by exact Hdb.
    revert H1. generalize w1.
    change (inv_step (fun w' => db w' = patchUsers id (ImagesArrayRemove image) (db w))
              (toast "Success" "Image removed successfully!" false ;;
               (if truthy (delete_url image)
                then emit (ConsoleLog (lit "Manual delete URL:"))
                else ret tt) ;;
               userEmail <- sessionStorage_getItem ;;
               fetchUserData userEmail)).
    unfold toast, sessionStorage_getItem.
    inv_walk frame_side.
  - intros e. unfold console_error, toast. inv_walk frame_side.
Qed.

End DeleteImage.

Section DeleteImageClaims.
Import UserPortalDashboard.

(** C6, as stated, fails: with two entries equal on every field, deleting
    one removes both. *)
Lemma delete_image_duplicate_counterexample : ~ delete_removes_exactly_one.
Proof.
  intros H.
  specialize (H (DeleteImageExample.portal [DeleteImageExample.pic; DeleteImageExample.pic])
                DeleteImageExample.pic 7%N
                (DeleteImageExample.account [DeleteImageExample.pic; DeleteImageExample.pic])
                [] [DeleteImageExample.pic] []
                eq_refl eq_refl eq_refl eq_refl).
  vm_compute in H. discriminate H.
Qed.

(** C6, amended. A confirmed deletion that the store accepts removes from
    the account's [images] every entry equal on all fields to the deleted
    one and keeps every other entry, in order; when the array holds the
    deleted entry once, exactly that entry goes; the arrays of the other
    accounts are untouched. *)
Theorem delete_image_removes_equal_entries
    (w : World State) (image : ImageRef) (id : DocId) (acc : Account)
    (imgs : list ImageRef) (more : list bool) :
  userData (ui w) = Some (id, acc) ->
  imagesOf id (db w) = Some imgs ->
  confirmAnswers w = true :: more ->
  lets_through w ->
  let w' := run (handleDeleteImage image) w in
  imagesOf id (db w')
  = Some (filter (fun y => negb (ImageRef_eqb y image)) imgs)
  /\ (forall y, In y (filter (fun y => negb (ImageRef_eqb y image)) imgs)
                <-> In y imgs /\ y <> image)
  /\ (forall l1 l2, imgs = l1 ++ image :: l2 -> ~ In image l1 -> ~ In image l2 ->
        imagesOf id (db w') = Some (l1 ++ l2))
  /\ (forall id', id' <> id -> imagesOf id' (db w') = imagesOf id' (db w)).
Proof.
  intros Hu Hi Hc Ho w'. subst w'.
  rewrite (handleDeleteImage_db w image id acc imgs more Hu Hi Hc Ho).
  split; [| split; [| split]].
  - apply (imagesOf_patch_same id (ImagesArrayRemove image) _ _ Hi).
  - intros y. apply (arrayRemove_In image y imgs).
  - intros l1 l2 -> H1 H2.
    rewrite (imagesOf_patch_same id (ImagesArrayRemove image) _ _ Hi).
    f_equal. now apply arrayRemove_once.
  - intros id' Hne. now apply imagesOf_patch_other.
Qed.

Lemma delete_image_removes_equal_entries_witness :
  let w := DeleteImageExample.portal [DeleteImageExample.other; DeleteImageExample.pic] in
  imagesOf 7%N (db (run (handleDeleteImage DeleteImageExample.pic) w))
  = Some [DeleteImageExample.other].
Proof.
  intros w.
  exact (proj1 (delete_image_removes_equal_entries w DeleteImageExample.pic 7%N
                  (DeleteImageExample.account [DeleteImageExample.other; DeleteImageExample.pic])
                  [DeleteImageExample.other; DeleteImageExample.pic] []
                  eq_refl eq_refl eq_refl eq_refl)).
Defined.

End DeleteImageClaims.

(* ================================================================== *)
(** * Replacing an image *)
(* ================================================================== *)

Section ReplaceImage.
Import UserPortalDashboard.





End ReplaceImage.


(* ================================================================== *)
(** * Failing list fetches *)
(* ================================================================== *)

(** C10. When the store fails the admin's documents fetch, the page's
    documents become the empty list and the error notice is shown unless
    the error code is [permission-denied]; when it fails the users fetch
    or the clinics fetch, the error notice is shown whatever the code and
    the list the page held stays. *)
Theorem fetch_failure_handling
    (wd : World DocumentManagement.State) (wu : World UserManagement.State)
    (wc : World ClinicManagement.State) (admin : jsstring) (e : Error) :
  userEmail (currentUser wd) = Some admin -> hd None (storeOutcomes wd) = Some e ->
  userEmail (currentUser wu) = Some admin -> hd None (storeOutcomes wu) = Some e ->
  userEmail (currentUser wc) = Some admin -> hd None (storeOutcomes wc) = Some e ->
  let wd' := run DocumentManagement.fetchDocuments wd in
  let wu' := run UserManagement.fetchUsers wu in
  let wc' := run ClinicManagement.fetchClinics wc in
  (DocumentManagement.documents_ (ui wd') = []
   /\ toasts (log wd')
      = toasts (log wd)
        ++ (if str_eqb (code e) (lit "permission-denied") then []
            else [Toast (lit "Error") (lit "Failed to load documents.") true]))
  /\ (UserManagement.users_ (ui wu') = UserManagement.users_ (ui wu)
      /\ toasts (log wu')
         = toasts (log wu) ++ [Toast (lit "Error") (lit "Failed to load users.") true])
  /\ (ClinicManagement.clinics_ (ui wc') = ClinicManagement.clinics_ (ui wc)
      /\ toasts (log wc')
         = toasts (log wc) ++ [Toast (lit "Error") (lit "Failed to load clinics.") true]).
Proof.
  intros Hd Hdo Hu Huo Hc Hco wd' wu' wc'. subst wd' wu' wc'.
  destruct wd as [d1 u1 o1 h1 c1 n1 ss1 loc1 lg1 st1].
  destruct wu as [d2 u2 o2 h2 c2 n2 ss2 loc2 lg2 st2].
  destruct wc as [d3 u3 o3 h3 c3 n3 ss3 loc3 lg3 st3].
  simpl in Hd, Hdo, Hu, Huo, Hc, Hco.
  destruct o1 as [|[e1|] r1]; simpl in Hdo; try discriminate.
  destruct o2 as [|[e2|] r2]; simpl in Huo; try discriminate.
  destruct o3 as [|[e3|] r3]; simpl in Hco; try discriminate.
  inversion Hdo; inversion Huo; inversion Hco; subst e1 e2 e3.
  unfold run, DocumentManagement.fetchDocuments, UserManagement.fetchUsers,
    ClinicManagement.fetchClinics, bind, useAuth, toasts.
  cbn [currentUser]. rewrite Hd, Hu, Hc.
  split; [| split].
  - cbn. destruct (str_eqb (code e) (lit "permission-denied")); cbn.
    + split; [reflexivity|]. rewrite !filter_app. cbn. now rewrite !app_nil_r.
    + split; [reflexivity|]. rewrite !filter_app. cbn. now rewrite !app_nil_r.
  - cbn. split; [reflexivity|]. rewrite !filter_app. cbn. now rewrite !app_nil_r.
  - cbn. split; [reflexivity|]. rewrite !filter_app. cbn. now rewrite !app_nil_r.
Qed.

Lemma fetch_failure_handling_witness :
  DocumentManagement.documents_
    (ui (run DocumentManagement.fetchDocuments FetchFailureExample.documentPage)) = []
  /\ toasts (log (run DocumentManagement.fetchDocuments FetchFailureExample.documentPage)) = [].
Proof.
  exact (proj1 (fetch_failure_handling FetchFailureExample.documentPage
                  FetchFailureExample.userPage FetchFailureExample.clinicPage
                  (lit "a@x.com") FetchFailureExample.denied
                  eq_refl eq_refl eq_refl eq_refl eq_refl eq_refl)).
Defined.

(* ================================================================== *)
(** * Owner scoping of reads *)
(* ================================================================== *)

Lemma returnedOwners_snoc (l : list Effect) (e : Effect) :
  returnedOwners (l ++ [e])
  = returnedOwners l
    ++ match e with Snapshot _ docs => map snd docs | _ => [] end.
Proof.
  unfold returnedOwners. rewrite flat_map_app. simpl. now rewrite app_nil_r.
Qed.

(** A query with a clause [where('createdBy', '==', owner)] returns only
    documents of that owner. *)
Lemma query_owned {D} `{DocData D} (docs : list (DocId * D)) (filters : list Where)
    (owner : jsstring) :
  In (mkWhere (lit "createdBy") (Some owner)) filters ->
  Forall (eq (Some owner)) (map snd (map summary (query docs filters))).
Proof.
  intros Hin. rewrite map_map. apply Forall_map, Forall_forall.
  intros d Hd. unfold query in Hd. apply filter_In in Hd. destruct Hd as [_ Hd].
  rewrite forallb_forall in Hd. specialize (Hd _ Hin).
  unfold matches in Hd. simpl in Hd. unfold summary. simpl.
  destruct (stringField (lit "createdBy") (snd d)) as [v|]; [|discriminate].
  apply str_eqb_eq in Hd. now subst.
Qed.

Section OwnerScoping.
Variable owner : jsstring.

Lemma getDocs_owned {S D} `{DocData D} (name : string)
    (coll : Store -> list (DocId * D)) (filters : list Where) :
  In (mkWhere (lit "createdBy") (Some owner)) filters ->
  inv_step (@only_own S owner) (getDocs name coll filters).
Proof.
  intros Hin w Hw. unfold only_own in *.
  unfold getDocs, getDocs_request, getDocs_answer, bind, emit, nextOutcome. cbn.
  destruct (storeOutcomes w) as [|[e|] rest]; cbn;
    rewrite ?returnedOwners_snoc, ?app_nil_r; auto;
    apply Forall_app; split; auto; now apply query_owned.
Qed.

Ltac owned_side :=
  intros; unfold only_own in *; cbn in *;
  rewrite ?returnedOwners_snoc, ?app_nil_r; assumption.

Ltac owned_query :=
  apply getDocs_owned; simpl; tauto.

Ltac owned_path w Hu Hw :=
  unfold bind at 1; unfold useAuth at 1; cbv beta iota;
  destruct (userEmail (currentUser w)) as [mail|] eqn:E; [| exact Hw];
  rewrite (Hu mail eq_refl); clear Hu E;
  revert Hw;
  match goal with |- only_own owner ?w -> only_own owner (snd (?m ?w)) =>
    revert w; change (inv_step (@only_own _ owner) m) end;
  unfold console_error, toast;
  inv_walk_pre owned_query owned_side.

(** Whatever the admin paths read while [owner] is signed in is [owner]'s. *)
Lemma fetchUsers_owned (w : World UserManagement.State) :
  (forall e, userEmail (currentUser w) = Some e -> e = owner) ->
  only_own owner w -> only_own owner (run UserManagement.fetchUsers w).
Proof.
  intros Hu Hw. unfold run, UserManagement.fetchUsers, UserManagement.usersQuery.
  owned_path w Hu Hw.
Qed.

Lemma fetchApprovedUsers_owned (w : World DocumentManagement.State) :
  (forall e, userEmail (currentUser w) = Some e -> e = owner) ->
  only_own owner w -> only_own owner (run DocumentManagement.fetchApprovedUsers w).
Proof.
  intros Hu Hw.
  unfold run, DocumentManagement.fetchApprovedUsers, DocumentManagement.approvedQuery.
  owned_path w Hu Hw.
Qed.

Lemma fetchDocuments_owned (w : World DocumentManagement.State) :
  (forall e, userEmail (currentUser w) = Some e -> e = owner) ->
  only_own owner w -> only_own owner (run DocumentManagement.fetchDocuments w).
Proof.
  intros Hu Hw.
  unfold run, DocumentManagement.fetchDocuments, DocumentManagement.documentsQuery.
  owned_path w Hu Hw.
Qed.

Lemma fetchClinics_owned (w : World ClinicManagement.State) :
  (forall e, userEmail (currentUser w) = Some e -> e = owner) ->
  only_own owner w -> only_own owner (run ClinicManagement.fetchClinics w).
Proof.
  intros Hu Hw.
  unfold run, ClinicManagement.fetchClinics, ClinicManagement.clinicsQuery.
  owned_path w Hu Hw.
Qed.

Lemma fetchStats_owned (w : World Dashboard.State) :
  (forall e, userEmail (currentUser w) = Some e -> e = owner) ->
  only_own owner w -> only_own owner (run Dashboard.fetchStats w).
Proof.
  intros Hu Hw. unfold run, Dashboard.fetchStats.
  owned_path w Hu Hw.
Qed.

End OwnerScoping.

Lemma userEmail_admin (identity e : jsstring) :
  userEmail (Some (mkAuthUser (Some identity))) = Some e -> e = identity.
Proof.
  simpl. destruct (truthy identity); [|discriminate]. congruence.
Qed.

Import ReadPaths.

(** On every read path of the admin console (users, approved users,
    documents, clinics, dashboard counts), whatever the store does, no
    record created by an admin A is returned to a query issued as
    another admin B: every such query carries the clause
    [createdBy == B]. *)
Lemma admin_paths_owner_scoped
    (p : ReadPath) (A B : jsstring) (outcomes : list (option Error)) (s : Store) :
  isAdminPath p = true ->
  A <> B ->
  ~ In (Some A) (returnedOwners (issue p B outcomes s)).
Proof.
  intros Hp Hne Hin.
  assert (Hall : Forall (eq (Some B)) (returnedOwners (issue p B outcomes s))).
  { destruct p; try discriminate Hp; unfold issue.
    - apply fetchUsers_owned; [apply userEmail_admin | constructor].
    - apply fetchApprovedUsers_owned; [apply userEmail_admin | constructor].
    - apply fetchDocuments_owned; [apply userEmail_admin | constructor].
    - apply fetchClinics_owned; [apply userEmail_admin | constructor].
    - apply fetchStats_owned; [apply userEmail_admin | constructor]. }
  rewrite Forall_forall in Hall. specialize (Hall _ Hin). congruence.
Qed.

(* ================================================================== *)
(** * Bulk status transitions *)
(* ================================================================== *)

Section BulkUpdate.
Import UserManagement.

Variables action reason : jsstring.
Variable selected : list DocId.

Lemma settled_applyPatch (t : Timestamp) (a : Account) :
  settled action reason (applyPatch t (updateData action reason) a).
Proof.
  unfold settled, updateData.
  destruct (str_eqb action (lit "rejected")); simpl; eauto.
Qed.

Lemma same_profile_applyPatch (t : Timestamp) (a : Account) :
  same_profile a (applyPatch t (updateData action reason) a).
Proof.
  unfold same_profile, updateData.
  destruct (str_eqb action (lit "rejected")); simpl; repeat split.
Qed.

Lemma transition_refl (l : list (DocId * Account)) : Forall2 (transition action reason selected) l l.
Proof. induction l; constructor; auto. split; auto. Qed.

Lemma transition_patch (id : DocId) (s : Store) (l : list (DocId * Account)) :
  In id selected ->
  Forall2 (transition action reason selected) l (users s) ->
  Forall2 (transition action reason selected) l (users (patchUsers id (updateData action reason) s)).
Proof.
  intros Hsel. unfold patchUsers. simpl. generalize (serverTime s). intros t.
  induction 1 as [|[i a] [i' a'] l l' [Hid Hd] _ IH]; simpl; constructor; auto.
  simpl in Hid, Hd. subst i'.
  destruct (N.eqb i id) eqn:E; [|split; auto].
  apply N.eqb_eq in E. subst i. split; [reflexivity|]. right. simpl.
  split; [exact Hsel|]. split; [|apply settled_applyPatch].
  destruct Hd as [-> | (_ & Hp & _)].
  - apply same_profile_applyPatch.
  - pose proof (same_profile_applyPatch t a') as Hq.
    unfold same_profile in *. intuition congruence.
Qed.

(** The updates of the batch keep the relation with the store the
    handler started from. *)
Lemma promiseAll_transition (w : World State) (ids : list DocId) :
  incl ids selected ->
  inv_step (fun w' : World State => Forall2 (transition action reason selected) (users (db w)) (users (db w')))
    (promiseAll (map (fun userId => updateDoc userId (updateData action reason)) ids)).
Proof.
  intros Hincl. apply inv_promiseAll. apply Forall_map, Forall_forall.
  intros id Hid. unfold updateDoc.
  inv_walk_pre
    ltac:(apply inv_commit_update; intros w1 H1; cbn;
          apply transition_patch; [apply Hincl, Hid | exact H1])
    frame_side.
Qed.

Lemma handleBulkUpdate_transition (w : World State) :
  bulkAction (ui w) = action ->
  rejectionReason_ (ui w) = reason ->
  selectedUsers (ui w) = selected ->
  Forall2 (transition action reason selected) (users (db w)) (users (db (run handleBulkUpdate w))).
Proof.
  intros Ha Hr Hs.
  set (I := fun w' : World State => Forall2 (transition action reason selected) (users (db w)) (users (db w'))).
  change (I (run handleBulkUpdate w)).
  assert (H0 : I w) by apply transition_refl.
  unfold run, handleBulkUpdate.
  unfold bind at 1. unfold getState at 1. cbv beta iota. rewrite Ha, Hr, Hs.
  revert H0. generalize w at 1 2.
  match goal with |- forall w0, I w0 -> I (snd (?m w0)) => change (inv_step I m) end.
  unfold toast, console_error, fetchUsers, getDocs, getDocs_request, getDocs_answer, I.
  inv_walk_pre ltac:(apply promiseAll_transition; apply incl_refl) frame_side.
Qed.

End BulkUpdate.

Section BulkUpdateProgress.
Import UserManagement.

Variables action reason : jsstring.

Lemma bind_after {S A B} (I : World S -> Prop) (m : M S A) (k : A -> M S B)
    (w : World S) :
  I (snd (m w)) -> (forall a, inv_step I (k a)) -> I (snd (bind m k w)).
Proof.
  intros Hm Hk. unfold bind.
  destruct (m w) as [[a|e] w1]; simpl in *; auto. now apply Hk.
Qed.

(** With no store failure scripted, one update settles the documents
    stored under its id and leaves the others as they were. *)
Lemma updateDoc_settles (id : DocId) (w : World State) :
  storeOutcomes w = [] ->
  let w1 := snd (updateDoc id (updateData action reason) w) in
  storeOutcomes w1 = []
  /\ forall d', In d' (users (db w1)) ->
       (fst d' = id /\ settled action reason (snd d'))
       \/ (fst d' <> id /\ In d' (users (db w))).
Proof.
  intros Ho. destruct w as [d u o h c n ss loc lg st]. simpl in Ho. subst o.
  cbn. destruct (existsb (fun d0 => N.eqb (fst d0) id) (users d)) eqn:E; cbn.
  - split; [reflexivity|]. intros d' Hd'.
    apply in_map_iff in Hd'. destruct Hd' as (d0 & <- & Hd0).
    destruct (N.eqb (fst d0) id) eqn:E0.
    + left. simpl. split; [now apply N.eqb_eq | apply settled_applyPatch].
    + right. split; [now apply N.eqb_neq | exact Hd0].
  - split; [reflexivity|]. intros d' Hd'. right. split; [|exact Hd'].
    intros Hid. apply Bool.not_true_iff_false in E. apply E.
    apply existsb_exists. exists d'. split; [exact Hd' | now apply N.eqb_eq].
Qed.

Lemma promiseAll_settles (ids done : list DocId) (w : World State) :
  storeOutcomes w = [] ->
  (forall d', In d' (users (db w)) -> In (fst d') done ->
              settled action reason (snd d')) ->
  let w2 := snd (promiseAll
                   (map (fun userId => updateDoc userId (updateData action reason)) ids) w) in
  storeOutcomes w2 = []
  /\ forall d', In d' (users (db w2)) -> In (fst d') (done ++ ids) ->
                settled action reason (snd d').
Proof.
  revert done w. induction ids as [|id ids IH]; intros done w Ho Hdone; simpl.
  - split; [exact Ho|]. intros d' Hd'. rewrite app_nil_r. now apply Hdone.
  - destruct (updateDoc_settles id w Ho) as [Ho1 H1].
    assert (Hstep : forall d', In d' (users (db (snd (updateDoc id (updateData action reason) w)))) ->
                      In (fst d') (done ++ [id]) -> settled action reason (snd d')).
    { intros d' Hd' Hin. destruct (H1 d' Hd') as [[_ Hs] | [Hne Hold]]; [exact Hs|].
      apply in_app_or in Hin. destruct Hin as [Hin | [Hin | []]].
      - now apply Hdone.
      - congruence. }
    specialize (IH (done ++ [id]) _ Ho1 Hstep).
    rewrite <- app_assoc in IH. simpl in IH.
    destruct (updateDoc id (updateData action reason) w) as [[u|e] w1]; simpl in *; exact IH.
Qed.

Lemma handleBulkUpdate_settles (w : World State) (selected : list DocId) :
  bulkAction (ui w) = action ->
  rejectionReason_ (ui w) = reason ->
  selectedUsers (ui w) = selected ->
  passes_guards action reason selected ->
  storeOutcomes w = [] ->
  forall d', In d' (users (db (run handleBulkUpdate w))) -> In (fst d') selected ->
             settled action reason (snd d').
Proof.
  intros Ha Hr Hs (Hact & Hsel & Hreason) Ho.
  set (J := fun w' : World State =>
              forall d', In d' (users (db w')) -> In (fst d') selected ->
                         settled action reason (snd d')).
  change (J (run handleBulkUpdate w)).
  unfold run, handleBulkUpdate.
  unfold bind at 1. unfold getState at 1. cbv beta iota. rewrite Ha, Hr, Hs, Hact.
  change (negb true) with false. cbv iota.
  replace (List.length selected =? 0)%nat with false
    by (destruct selected; [congruence | reflexivity]).
  replace (str_eqb action (lit "rejected") && negb (truthy (trim reason))) with false
    by (destruct (str_eqb action (lit "rejected")); [rewrite Hreason|]; reflexivity).
  unfold bind at 1. unfold setState at 1. cbv beta iota.
  apply try_catch_finally_after.
  - apply bind_after.
    + unfold J.
      exact (proj2 (promiseAll_settles selected []
                      (set_ui (setSubmitting true (ui w)) w) Ho
                      (fun d' _ (F : In (fst d') []) => match F with end))).
    + intros _. unfold fetchUsers, getDocs, getDocs_request, getDocs_answer, toast, console_error, J.
      inv_walk frame_side.
  - intros e. unfold toast, console_error, J. inv_walk frame_side.
  - unfold J. inv_walk frame_side.
Qed.

(** A rejection without a reason is stopped before any store request. *)
Lemma handleBulkUpdate_blocked (w : World State) :
  bulkAction (ui w) = lit "rejected" ->
  truthy (trim (rejectionReason_ (ui w))) = false ->
  db (run handleBulkUpdate w) = db w
  /\ filter isStoreRequest (log (run handleBulkUpdate w))
     = filter isStoreRequest (log w).
Proof.
  intros Ha Hr.
  set (I := fun w' : World State =>
              db w' = db w
              /\ filter isStoreRequest (log w') = filter isStoreRequest (log w)).
  change (I (run handleBulkUpdate w)).
  unfold run, handleBulkUpdate.
  unfold bind at 1. unfold getState at 1. cbv beta iota. rewrite Ha, Hr.
  change (negb (truthy (lit "rejected"))) with false.
  rewrite str_eqb_refl. cbv iota.
  destruct (List.length (selectedUsers (ui w)) =? 0)%nat; unfold I; cbn;
    rewrite filter_app; cbn; now rewrite app_nil_r.
Qed.

End BulkUpdateProgress.

Section BulkUpdateClaim.
Import UserManagement.

Lemma trim_empty_falsy (s : jsstring) : truthy (trim s) = false <-> trim s = [].
Proof. destruct (trim s); simpl; split; congruence. Qed.

(** C2. A bulk status transition over a non-empty selection.  To
    [rejected], it reaches the store only when the reason is non-empty
    after trimming, and every account it updates ends with that reason
    and a rejection timestamp.  To any other status ([approved],
    [pending]), every account it updates ends with the reason and the
    timestamp cleared.  Every account of the store is either left as it
    was or is a selected one, updated in this way and in nothing else;
    and when the store fails no request, every selected account is
    updated. *)
Theorem bulk_status_transition
    (w : World State) (action reason : jsstring) (selected : list DocId) :
  bulkAction (ui w) = action ->
  rejectionReason_ (ui w) = reason ->
  selectedUsers (ui w) = selected ->
  truthy action = true ->
  selected <> [] ->
  let w' := run handleBulkUpdate w in
  (action = lit "rejected" ->
     (trim reason = [] ->
        db w' = db w
        /\ filter isStoreRequest (log w') = filter isStoreRequest (log w))
     /\ (db w' <> db w -> trim reason <> [] /\ reason <> []))
  /\ Forall2 (transition action reason selected) (users (db w)) (users (db w'))
  /\ (forall a', settled action reason a' ->
        status a' = action
        /\ (action = lit "rejected" ->
              rejectionReason a' = Some reason /\ exists t, rejectedAt a' = Some t)
        /\ (action = lit "approved" \/ action = lit "pending" ->
              rejectionReason a' = None /\ rejectedAt a' = None))
  /\ ((action = lit "rejected" -> trim reason <> []) ->
      storeOutcomes w = [] ->
      forall d', In d' (users (db w')) -> In (fst d') selected ->
                 settled action reason (snd d')).
Proof.
  intros Ha Hr Hs Hact Hsel w'. subst w'.
  assert (Hblock : action = lit "rejected" -> trim reason = [] ->
            db (run handleBulkUpdate w) = db w
            /\ filter isStoreRequest (log (run handleBulkUpdate w))
               = filter isStoreRequest (log w)).
  { intros E Ht. apply handleBulkUpdate_blocked.
    - congruence.
    - rewrite Hr. now apply trim_empty_falsy. }
  split; [| split; [| split]].
  - intros E. split; [now apply Hblock|].
    intros Hchanged.
    assert (Ht : trim reason <> []).
    { intros Ht. apply Hchanged. now apply Hblock. }
    split; [exact Ht|]. intros ->. now apply Ht.
  - now apply handleBulkUpdate_transition.
  - intros a' [Hst Hfields]. split; [exact Hst|]. split.
    + intros E. rewrite E in Hfields. rewrite str_eqb_refl in Hfields. exact Hfields.
    + intros E.
      replace (str_eqb action (lit "rejected")) with false in Hfields; [exact Hfields|].
      destruct E as [-> | ->]; reflexivity.
  - intros Hreason Ho. apply handleBulkUpdate_settles; auto.
    repeat split; auto.
    intros E. apply str_eqb_eq in E. specialize (Hreason E).
    destruct (truthy (trim reason)) eqn:Et; [reflexivity|].
    apply trim_empty_falsy in Et. contradiction.
Qed.

Lemma bulk_status_transition_witness :
  Forall2 (transition (lit "rejected") (lit "duplicate") [7%N])
    (users (db BulkUpdateExample.page))
    (users (db (run handleBulkUpdate BulkUpdateExample.page))).
Proof.
  refine (proj1 (proj2
    (bulk_status_transition BulkUpdateExample.page (lit "rejected") (lit "duplicate")
       [7%N] eq_refl eq_refl eq_refl eq_refl _))).
  discriminate.
Defined.

End BulkUpdateClaim.

(* ================================================================== *)
(** * The email pattern of the portal login *)
(* ================================================================== *)

Section RegexFacts.
Import Regex.

Lemma nullable_sound (r : regex) : nullable r = true -> Matches r [].
Proof.
  induction r; simpl; intros H; try discriminate.
  - constructor.
  - apply andb_true_iff in H. destruct H as [H1 H2].
    change (@nil N) with (@nil N ++ @nil N). constructor; auto.
  - apply orb_true_iff in H. destruct H as [H|H]; [apply MAltL | apply MAltR]; auto.
  - constructor.
  - change (@nil N) with (@nil N ++ @nil N). constructor; auto. constructor.
Qed.

Lemma deriv_sound (c : N) (r : regex) :
  forall s, Matches (deriv c r) s -> Matches r (c :: s).
Proof.
  induction r; simpl; intros s H.
  - inversion H.
  - inversion H.
  - destruct (N.eqb c c0) eqn:E; inversion H; subst.
    apply N.eqb_eq in E. subst. constructor.
  - destruct (existsb (fun i => item_matches i c) items) eqn:E; inversion H; subst.
    now constructor.
  - destruct (nullable r1) eqn:E.
    + inversion H; subst.
      * match goal with Hs : Matches (Seq _ _) _ |- _ => inversion Hs; subst end.
        change (c :: s1 ++ s2) with ((c :: s1) ++ s2). constructor; auto.
      * change (c :: s) with ([] ++ c :: s). constructor; auto.
        now apply nullable_sound.
    + inversion H; subst.
      change (c :: s1 ++ s2) with ((c :: s1) ++ s2). constructor; auto.
  - inversion H; subst; [apply MAltL | apply MAltR]; auto.
  - inversion H; subst.
    change (c :: s1 ++ s2) with ((c :: s1) ++ s2). constructor; auto.
  - inversion H; subst.
    change (c :: s1 ++ s2) with ((c :: s1) ++ s2). constructor; auto.
Qed.

Lemma test_sound (r : regex) (s : jsstring) : test r s = true -> Matches r s.
Proof.
  revert r. induction s as [|c s IH]; simpl; intros r H.
  - now apply nullable_sound.
  - apply deriv_sound. now apply IH.
Qed.

(** The strings of [[^...]*] and [[^...]+]. *)
Lemma Matches_star_class (items : list ClassItem) (s : jsstring) :
  Matches (Star (NotClass items)) s ->
  Forall (fun c => existsb (fun i => item_matches i c) items = false) s.
Proof.
  intros H. remember (Star (NotClass items)) as r eqn:Er.
  induction H; inversion Er; subst; auto.
  apply Forall_app. split; auto.
  match goal with Hc : Matches (NotClass _) _ |- _ => inversion Hc; subst end.
  constructor; auto.
Qed.

Lemma Matches_plus_class (items : list ClassItem) (s : jsstring) :
  Matches (Plus (NotClass items)) s ->
  s <> [] /\ Forall (fun c => existsb (fun i => item_matches i c) items = false) s.
Proof.
  intros H. inversion H; subst.
  match goal with Hc : Matches (NotClass _) _ |- _ => inversion Hc; subst end.
  split; [discriminate|].
  simpl. constructor; auto. now apply Matches_star_class.
Qed.

End RegexFacts.

Section EmailPattern.
Import Regex UserPortalLogin.

(** What [emailRegex] accepts: [local@domain.tld], the three parts
    non-empty and free of white space and of [@]. *)
Lemma emailRegex_shape (s : jsstring) :
  test emailRegex s = true ->
  exists a b c,
    s = a ++ [64%N] ++ b ++ [46%N] ++ c
    /\ a <> [] /\ b <> [] /\ c <> []
    /\ Forall part_char a /\ Forall part_char b /\ Forall part_char c.
Proof.
  intros H. apply test_sound in H. unfold emailRegex in H.
  inversion H as [| | | r1 r2 a s2 Ha H2 | | | | |]; subst.
  inversion H2 as [| | | r1 r2 at_ s3 Hat H3 | | | | |]; subst.
  inversion H3 as [| | | r1 r2 b s4 Hb H4 | | | | |]; subst.
  inversion H4 as [| | | r1 r2 dot c Hdot Hc | | | | |]; subst.
  inversion Hat; subst. inversion Hdot; subst.
  apply Matches_plus_class in Ha, Hb, Hc.
  destruct Ha as [Ha1 Ha2], Hb as [Hb1 Hb2], Hc as [Hc1 Hc2].
  assert (Hpart : forall l,
            Forall (fun c => existsb (fun i => item_matches i c)
                               [ClsSpace; ClsChar 64] = false) l ->
            Forall part_char l).
  { intros l. apply Forall_impl. intros x Hx. simpl in Hx.
    rewrite orb_false_r in Hx. apply orb_false_iff in Hx. destruct Hx as [Hx1 Hx2].
    split; [exact Hx1 | now apply N.eqb_neq]. }
  exists a, b, c. repeat split; auto.
Qed.

Lemma trimStart_id (s : jsstring) :
  Forall (fun c => isWhiteSpace c = false) s -> trimStart s = s.
Proof. destruct 1 as [|c s Hc _]; simpl; [reflexivity | now rewrite Hc]. Qed.

Lemma trim_id (s : jsstring) :
  Forall (fun c => isWhiteSpace c = false) s -> trim s = s.
Proof.
  intros H. unfold trim, trimEnd. rewrite (trimStart_id s H).
  rewrite trimStart_id; [apply rev_involutive | now apply Forall_rev].
Qed.

(** An address the pattern accepts has nothing to trim, and is not empty. *)
Lemma emailRegex_trim (s : jsstring) :
  test emailRegex s = true -> trim s = s /\ truthy s = true.
Proof.
  intros H. destruct (emailRegex_shape s H) as (a & b & c & -> & Ha & _ & _ & Fa & Fb & Fc).
  split.
  - apply trim_id.
    assert (Hw : forall l, Forall part_char l -> Forall (fun c => isWhiteSpace c = false) l).
    { intros l. apply Forall_impl. now intros x [Hx _]. }
    repeat (apply Forall_app; split); auto; repeat constructor.
  - destruct a; [congruence | reflexivity].
Qed.

End EmailPattern.

(* ================================================================== *)
(** * The portal login *)
(* ================================================================== *)

Section PortalLogin.
Import Regex UserPortalLogin.

Lemma handleSubmit_outcome (w : World State) :
  let w' := run handleSubmit w in
  (ui w', sessionStorage w', location w')
  = loginOutcome (ui w) (sessionStorage w) (location w)
      (hd None (storeOutcomes w)) (hd_error (found w)).
Proof.
  destruct w as [d u o h c n ss loc lg [mail err ld]].
  unfold found, loginQuery, loginOutcome, run, handleSubmit, getDocs, getDocs_request,
    getDocs_answer, bind, getState,
    try_catch_finally, nextOutcome, emit, setState, ret, console_error,
    sessionStorage_setItem, setLocation.
  cbn.
  destruct (truthy (trim mail)); cbn; [|reflexivity].
  destruct (test emailRegex mail); cbn; [|reflexivity].
  destruct o as [|[e|] rest]; cbn; try reflexivity;
    destruct (query (users d) [mkWhere (lit "email") (Some (trim mail))])
      as [|[id acc] more]; cbn; try reflexivity;
    match goal with
    | |- context [str_eqb ?x (lit "approved")] =>
        destruct (str_eqb x (lit "approved")); reflexivity
    end.
Qed.

Lemma denial_includes (st : jsstring) : includes (denial st) st.
Proof. unfold denial. apply includes_middle. Qed.

End PortalLogin.

Section PortalLoginClaims.
Import Regex UserPortalLogin.

(** C3. From the unauthenticated state, a submission stores the email in
    session storage and navigates to the portal dashboard only when the
    email matches the pattern, the store returned an account with that
    email, and that account's status is exactly [approved] (and then it
    does).  When the account returned has status [pending] or [rejected],
    nothing is stored, the location stays, and the message shown contains
    that status. *)
Theorem portal_login_gate (w : World State) :
  sessionStorage w = None ->
  let mail := email_ (ui w) in
  let w' := run handleSubmit w in
  (sessionStorage w' <> None \/ location w' <> location w ->
     test emailRegex mail = true
     /\ exists id acc more,
          query (users (db w)) [mkWhere (lit "email") (Some mail)] = (id, acc) :: more
          /\ email acc = mail
          /\ status acc = lit "approved"
          /\ sessionStorage w' = Some mail
          /\ location w' = lit "/user-portal-dashboard")
  /\ (forall id acc more,
        test emailRegex mail = true ->
        lets_through w ->
        query (users (db w)) [mkWhere (lit "email") (Some mail)] = (id, acc) :: more ->
        (status acc = lit "approved" ->
           sessionStorage w' = Some mail
           /\ location w' = lit "/user-portal-dashboard")
        /\ (status acc = lit "pending" \/ status acc = lit "rejected" ->
              sessionStorage w' = None
              /\ location w' = location w
              /\ error (ui w') = denial (status acc)
              /\ includes (error (ui w')) (status acc))).
Proof.
  intros Hss mail w'.
  pose proof (handleSubmit_outcome w) as Hout. cbv zeta in Hout.
  fold w' in Hout. unfold loginOutcome, found, loginQuery in Hout.
  fold mail in Hout. rewrite Hss in Hout.
  split.
  - intros Hchanged.
    destruct (truthy (trim mail)) eqn:Et; simpl in Hout;
      [| inversion Hout; destruct Hchanged; congruence].
    destruct (test emailRegex mail) eqn:Er; simpl in Hout;
      [| inversion Hout; destruct Hchanged; congruence].
    destruct (emailRegex_trim mail Er) as [Htrim _]. rewrite Htrim in Hout.
    split; [reflexivity|].
    destruct (hd None (storeOutcomes w)) as [e|];
      [inversion Hout; destruct Hchanged; congruence|].
    destruct (query (users (db w)) [mkWhere (lit "email") (Some mail)])
      as [|[id acc] more] eqn:Eq; simpl in Hout;
      [inversion Hout; destruct Hchanged; congruence|].
    destruct (str_eqb (status acc) (lit "approved")) eqn:Es; simpl in Hout;
      [| inversion Hout; destruct Hchanged; congruence].
    exists id, acc, more. inversion Hout. repeat split; auto.
    + assert (Hin : In (id, acc) (query (users (db w)) [mkWhere (lit "email") (Some mail)]))
        by (rewrite Eq; now left).
      unfold query in Hin. apply filter_In in Hin. destruct Hin as [_ Hm].
      simpl in Hm. rewrite andb_true_r in Hm.
      unfold matches in Hm. simpl in Hm. unfold stringField, Account_DocData in Hm.
      simpl in Hm. now apply str_eqb_eq.
    + now apply str_eqb_eq.
  - intros id acc more Er Ho Eq.
    destruct (emailRegex_trim mail Er) as [Htrim Htruthy].
    rewrite Htrim, Htruthy, Er, Ho, Eq in Hout. simpl in Hout.
    split.
    + intros Es. rewrite Es, str_eqb_refl in Hout. simpl in Hout.
      inversion Hout. auto.
    + intros Es.
      replace (str_eqb (status acc) (lit "approved")) with false in Hout
        by (destruct Es as [-> | ->]; reflexivity).
      simpl in Hout. injection Hout as Hui Hs Hl.
      split; [exact Hs|]. split; [exact Hl|]. rewrite Hui. simpl.
      split; [reflexivity | apply denial_includes].
Qed.

Lemma portal_login_gate_witness :
  let w := LoginExample.page [(7%N, LoginExample.account "pending")] in
  sessionStorage (run handleSubmit w) = None
  /\ location (run handleSubmit w) = location w
  /\ error (ui (run handleSubmit w)) = denial (lit "pending")
  /\ includes (error (ui (run handleSubmit w))) (lit "pending").
Proof.
  intros w.
  refine (proj2 (proj2 (portal_login_gate w eq_refl) 7%N
                   (LoginExample.account "pending") [] _ eq_refl eq_refl) _).
  - vm_compute. reflexivity.
  - left. reflexivity.
Defined.

(** C9. With several accounts under one email, the decision of the
    login is that of the first account the query returns, whatever the
    accounts after it hold.  For a well-formed address and a store that
    answers: when the first account is approved, access is granted (the
    address goes to session storage, the location becomes the portal
    dashboard, no message is shown), even if every other account is
    pending or rejected; when it is not, access is denied (session
    storage and location stay as they were) and the status named in the
    message is that of the first account, even if another account is
    approved.  A store whose query returns the first account alone leads
    to the same page, session storage and location. *)
Theorem login_decided_by_first_account
    (w : World State) (first : DocId * Account) (others : list (DocId * Account)) :
  test emailRegex (email_ (ui w)) = true ->
  lets_through w ->
  found w = first :: others ->
  let mail := email_ (ui w) in
  let w' := run handleSubmit w in
  (status (snd first) = lit "approved" ->
     ui w' = mkState mail [] false
     /\ sessionStorage w' = Some mail
     /\ location w' = lit "/user-portal-dashboard")
  /\ (status (snd first) <> lit "approved" ->
        ui w' = mkState mail (denial (status (snd first))) false
        /\ includes (error (ui w')) (status (snd first))
        /\ sessionStorage w' = sessionStorage w
        /\ location w' = location w)
  /\ (forall w2 : World State,
        ui w2 = ui w -> sessionStorage w2 = sessionStorage w ->
        location w2 = location w -> lets_through w2 ->
        found w2 = [first] ->
        ui (run handleSubmit w2) = ui w'
        /\ sessionStorage (run handleSubmit w2) = sessionStorage w'
        /\ location (run handleSubmit w2) = location w').
Proof.
  intros Er Ho Hfound mail w'. subst mail.
  pose proof (handleSubmit_outcome w) as Hout. cbv zeta in Hout.
  fold w' in Hout.
  split; [| split].
  - intros Es. unfold loginOutcome in Hout. cbv zeta in Hout.
    destruct (emailRegex_trim _ Er) as [Htrim Htruthy].
    unfold lets_through in Ho.
    rewrite Htrim, Htruthy, Er, Ho, Hfound in Hout. simpl in Hout.
    rewrite Es, str_eqb_refl in Hout. simpl in Hout.
    inversion Hout. auto.
  - intros Es. unfold loginOutcome in Hout. cbv zeta in Hout.
    destruct (emailRegex_trim _ Er) as [Htrim Htruthy].
    unfold lets_through in Ho.
    rewrite Htrim, Htruthy, Er, Ho, Hfound in Hout. simpl in Hout.
    destruct (str_eqb (status (snd first)) (lit "approved")) eqn:Eb;
      [apply str_eqb_eq in Eb; contradiction |].
    simpl in Hout. injection Hout as Hui Hs Hl.
    rewrite Hui. simpl. repeat split; auto. apply denial_includes.
  - intros w2 Hui Hss Hloc Ho2 Hfound2.
    pose proof (handleSubmit_outcome w2) as H2. cbv zeta in H2.
    unfold lets_through in Ho, Ho2.
    rewrite Hui, Hss, Hloc, Ho2, Hfound2 in H2.
    rewrite Ho, Hfound in Hout. simpl hd_error in H2, Hout.
    rewrite <- Hout in H2. inversion H2. auto.
Qed.

Lemma login_decided_by_first_account_witness :
  let denied := run handleSubmit
                  (LoginExample.page [(7%N, LoginExample.account "pending");
                                      (9%N, LoginExample.account "approved")]) in
  let granted := run handleSubmit
                   (LoginExample.page [(7%N, LoginExample.account "approved");
                                       (9%N, LoginExample.account "rejected")]) in
  (error (ui denied) = denial (lit "pending")
   /\ sessionStorage denied = None
   /\ location denied = lit "/user-portal-login")
  /\ (error (ui granted) = []
      /\ sessionStorage granted = Some (lit "b@x.com")
      /\ location granted = lit "/user-portal-dashboard").
Proof.
  intros denied granted. split.
  - destruct (proj1 (proj2
        (login_decided_by_first_account
           (LoginExample.page [(7%N, LoginExample.account "pending");
                               (9%N, LoginExample.account "approved")])
           (7%N, LoginExample.account "pending")
           [(9%N, LoginExample.account "approved")]
           eq_refl eq_refl eq_refl)))
      as (Hui & _ & Hs & Hl).
    + intros E. cbv in E. discriminate E.
    + fold denied in Hui, Hs, Hl. rewrite Hui, Hs, Hl. repeat split.
  - destruct (proj1
        (login_decided_by_first_account
           (LoginExample.page [(7%N, LoginExample.account "approved");
                               (9%N, LoginExample.account "rejected")])
           (7%N, LoginExample.account "approved")
           [(9%N, LoginExample.account "rejected")]
           eq_refl eq_refl eq_refl))
      as (Hui & Hs & Hl).
    + reflexivity.
    + fold granted in Hui, Hs, Hl. rewrite Hui, Hs, Hl. repeat split.
Defined.

End PortalLoginClaims.

(* ================================================================== *)
(** * Reads of the portal *)
(* ================================================================== *)

Section PortalReads.
Import Regex.

(** The accounts a query by address returns were created by a tenant of
    that address. *)
Lemma query_email_tenants (s : Store) (mail : jsstring) (A : jsstring) :
  In (Some A)
     (map snd (map summary (query (users s) [mkWhere (lit "email") (Some mail)]))) ->
  In A (map (fun d => createdBy (snd d))
          (filter (fun d => str_eqb (email (snd d)) mail) (users s))).
Proof.
  rewrite map_map, !in_map_iff. intros (d & Hd & Hin).
  exists d. unfold summary, stringField, Account_DocData in Hd. simpl in Hd.
  split; [congruence |].
  unfold query in Hin. apply filter_In in Hin. destruct Hin as [Hin Hm].
  apply filter_In. split; [exact Hin |].
  simpl in Hm. rewrite andb_true_r in Hm.
  unfold matches, stringField, Account_DocData in Hm. simpl in Hm. exact Hm.
Qed.

Lemma portalLogin_returns (B : jsstring) (outcomes : list (option Error)) (s : Store)
    (o : option jsstring) :
  In o (returnedOwners (issue PortalLogin B outcomes s)) ->
  In o (map snd (map summary (query (users s) [mkWhere (lit "email") (Some B)]))).
Proof.
  unfold issue, world, run, UserPortalLogin.handleSubmit, getDocs, getDocs_request,
    getDocs_answer, bind, getState, try_catch_finally, nextOutcome, emit, setState, ret,
    console_error, sessionStorage_setItem, setLocation.
  cbn.
  destruct (truthy (trim B)); cbn; [| intros []].
  destruct (test UserPortalLogin.emailRegex B) eqn:Er; cbn; [| intros []].
  destruct (emailRegex_trim B Er) as [-> _].
  destruct outcomes as [|[e|] rest]; cbn; try (intros []);
    destruct (query (users s) [mkWhere (lit "email") (Some B)])
      as [|[id acc] more]; cbn; try (intros []);
    match goal with
    | |- context [str_eqb ?x (lit "approved")] =>
        destruct (str_eqb x (lit "approved")); cbn; rewrite ?app_nil_r; auto
    end.
Qed.

Lemma portalFetchUserData_returns (B : jsstring) (outcomes : list (option Error))
    (s : Store) (o : option jsstring) :
  In o (returnedOwners (issue PortalFetchUserData B outcomes s)) ->
  In o (map snd (map summary (query (users s) [mkWhere (lit "email") (Some B)]))).
Proof.
  unfold issue, world, run, UserPortalDashboard.fetchUserData,
    UserPortalDashboard.fetchUserData_around, getDocs, getDocs_request, getDocs_answer,
    bind, try_catch_finally, nextOutcome, emit, setState, ret, console_error.
  cbn.
  destruct outcomes as [|[e|] rest]; cbn; try (intros []);
    destruct (query (users s) [mkWhere (lit "email") (Some B)])
      as [|[id acc] more]; cbn; rewrite ?app_nil_r; auto.
Qed.

Lemma fetchUserDocuments_keeps (B : jsstring) (outcomes : list (option Error))
    (s : Store) :
  hd None outcomes = None ->
  UserPortalDashboard.documents_
    (ui (run (UserPortalDashboard.fetchUserDocuments B)
           (world s None (Some B) outcomes UserPortalDashboard.initial)))
  = filter (UserPortalDashboard.assignedTo B) (documents s).
Proof.
  intros Ho.
  assert (Hall : query (documents s) [] = documents s).
  { unfold query. simpl. induction (documents s) as [|d l IH]; simpl; congruence. }
  destruct outcomes as [|[e|] rest]; try discriminate Ho; cbn; now rewrite Hall.
Qed.

(** C1, as stated, fails.  In the store of two tenants Bob's account was
    created by a@x.com alone, and z@x.com's document is assigned to
    Carol; the portal's document fetch carries no [where] clause, so
    under Bob's address the store returns z@x.com's document too. *)
Lemma portal_reads_other_tenant_counterexample : ~ owner_scoped_reads.
Proof.
  intros H.
  apply (H PortalFetchUserDocuments OwnerScopingExample.zoe OwnerScopingExample.bob
           [] OwnerScopingExample.twoTenants).
  - cbv. discriminate.
  - cbv. intros [E | []]. discriminate E.
  - cbv. right. left. reflexivity.
Qed.

(** C1, amended.  On every read path but the portal's document fetch,
    whatever the store does, no record from outside the caller's tenant
    is returned: on the admin paths (users, approved users, documents,
    clinics, dashboard counts) a record created by an admin A is never
    returned to a query issued as another admin B, and the two portal
    paths that read accounts return only accounts stored under the
    portal address.  The portal's document fetch reads the whole
    collection; of what the store returns the page keeps the documents
    assigned to the portal address, whoever created them. *)
Theorem reads_owner_scoped
    (p : ReadPath) (A B : jsstring) (outcomes : list (option Error)) (s : Store) :
  (isAdminPath p = true -> A <> B ->
     ~ In (Some A) (returnedOwners (issue p B outcomes s)))
  /\ (p <> PortalFetchUserDocuments -> ~ In A (tenantsOf p B s) ->
        ~ In (Some A) (returnedOwners (issue p B outcomes s)))
  /\ (hd None outcomes = None ->
        UserPortalDashboard.documents_
          (ui (run (UserPortalDashboard.fetchUserDocuments B)
                 (world s None (Some B) outcomes UserPortalDashboard.initial)))
        = filter (UserPortalDashboard.assignedTo B) (documents s)).
Proof.
  split; [| split].
  - apply admin_paths_owner_scoped.
  - intros Hp Hout Hin.
    destruct (isAdminPath p) eqn:Ea.
    + revert Hin. apply admin_paths_owner_scoped; [exact Ea |].
      intros ->. apply Hout. unfold tenantsOf. rewrite Ea. now left.
    + apply Hout. unfold tenantsOf. rewrite Ea.
      apply query_email_tenants.
      destruct p; try discriminate Ea.
      * now apply portalLogin_returns in Hin.
      * now apply portalFetchUserData_returns in Hin.
      * now contradiction Hp.
  - apply fetchUserDocuments_keeps.
Qed.

Lemma reads_owner_scoped_witness :
  ~ In (Some OwnerScopingExample.zoe)
       (returnedOwners (issue FetchDocuments OwnerScopingExample.alice []
                          OwnerScopingExample.twoTenants))
  /\ ~ In (Some OwnerScopingExample.zoe)
         (returnedOwners (issue PortalLogin OwnerScopingExample.bob []
                            OwnerScopingExample.twoTenants)).
Proof.
  split.
  - apply (proj1 (reads_owner_scoped FetchDocuments OwnerScopingExample.zoe
                    OwnerScopingExample.alice [] OwnerScopingExample.twoTenants)).
    + reflexivity.
    + intros E. cbv in E. discriminate E.
  - apply (proj1 (proj2 (reads_owner_scoped PortalLogin OwnerScopingExample.zoe
                           OwnerScopingExample.bob [] OwnerScopingExample.twoTenants))).
    + discriminate.
    + cbv. intros [E | []]. discriminate E.
Defined.

End PortalReads.

(* ================================================================== *)
(** * Image upload preconditions *)
(* ================================================================== *)

Section UploadPreconditions.
Import UserPortalDashboard.

Lemma posts_snoc (l : list Effect) (e : Effect) :
  posts (l ++ [e]) = posts l ++ match e with HttpPost _ f => [f] | _ => [] end.
Proof. unfold posts. rewrite flat_map_app. simpl. now rewrite app_nil_r. Qed.

Ltac upload_side :=
  intros; unfold upload_inv in *;
  match goal with H : _ /\ _ |- _ => destruct H as [? ?] end;
  split; cbn in *; rewrite ?posts_snoc; cbn; rewrite ?app_nil_r; auto;
  try (intros; discriminate).

Lemma handleFileSelect_inv (file : option File) :
  inv_step upload_inv (handleFileSelect file).
Proof.
  unfold handleFileSelect. destruct file as [f|]; [|apply inv_ret].
  destruct (startsWith (file_type f) (lit "image/")) eqn:Et; simpl negb; cbv iota.
  - destruct (MAX_SIZE <? file_size f)%N eqn:Es.
    + unfold toast. inv_walk upload_side.
    + apply inv_setState. intros w [H1 H2]. split; [exact H1|].
      cbn. intros g Hg. inversion Hg; subst g. split; [exact Et|].
      now apply N.ltb_ge.
  - unfold toast. inv_walk upload_side.
Qed.

Lemma handleUploadImage_inv : inv_step upload_inv handleUploadImage.
Proof.
  intros w Hw. unfold handleUploadImage.
  unfold bind at 1. unfold getState at 1. cbv beta iota.
  destruct (selectedFile (ui w)) as [file|] eqn:Ef.
  - assert (Hfile : acceptable file) by (apply (proj2 Hw); exact Ef).
    clear Ef. generalize (ui w). intros st. revert w Hw.
    match goal with |- forall w0, upload_inv w0 -> upload_inv (snd (?m w0)) =>
      change (inv_step upload_inv m) end.
    unfold ImgBB.uploadImageToImgBB, ImgBB.axios_post, updateDoc, fetchUserData,
      fetchUserData_around, getDocs, getDocs_request, getDocs_answer, toast,
      console_error, sessionStorage_getItem.
    inv_walk_pre
      ltac:(apply inv_emit; intros w0 [H1 H2]; split;
            [ cbn; rewrite posts_snoc; apply Forall_app; split;
              [exact H1 | constructor; [exact Hfile | constructor]]
            | exact H2 ])
      upload_side.
  - clear Ef. revert w Hw.
    match goal with |- forall w0, upload_inv w0 -> upload_inv (snd (?m w0)) =>
      change (inv_step upload_inv m) end.
    unfold toast. inv_walk upload_side.
Qed.

Lemma handle_inv (e : Event) : inv_step upload_inv (handle e).
Proof.
  destruct e; simpl.
  - unfold mount, fetchUserData_around, fetchUserDocuments_around, getDocs_request,
      getDocs_answer, console_error,
      sessionStorage_getItem.
    inv_walk upload_side.
  - unfold handleLogout, sessionStorage_removeItem. inv_walk upload_side.
  - unfold handleDownload. inv_walk upload_side.
  - apply handleFileSelect_inv.
  - apply handleUploadImage_inv.
  - unfold handleEditImage, toast. inv_walk upload_side.
  - unfold handleDeleteImage, updateDoc, fetchUserData, fetchUserData_around, getDocs,
      getDocs_request, getDocs_answer, toast,
      console_error, sessionStorage_getItem, getState.
    inv_walk upload_side.
  - inv_walk upload_side.
  - unfold handleCloseSidebar. inv_walk upload_side.
Qed.

Lemma session_inv (es : list Event) (w : World State) :
  upload_inv w -> upload_inv (session es w).
Proof.
  revert w. induction es as [|e es IH]; intros w Hw; simpl; auto.
  apply IH. now apply handle_inv.
Qed.

End UploadPreconditions.

Section UploadClaim.
Import UserPortalDashboard.

(** While the page counts three images and none is being edited,
    [handleUploadImage] returns at its second guard. *)
Lemma upload_refused_at_three (w : World State) :
  (3 <= List.length (userImages (ui w)))%nat ->
  editingImage (ui w) = None ->
  let w' := run handleUploadImage w in
  posts (log w') = posts (log w)
  /\ filter isStoreRequest (log w') = filter isStoreRequest (log w)
  /\ db w' = db w.
Proof.
  intros Hthree Hedit. unfold run, handleUploadImage.
  set (I := fun w' : World State =>
              posts (log w') = posts (log w)
              /\ filter isStoreRequest (log w') = filter isStoreRequest (log w)
              /\ db w' = db w).
  cbv zeta.
  match goal with |- context [snd ?x] => change (I (snd x)) end.
  unfold bind at 1. unfold getState at 1. cbv beta iota.
  rewrite Hedit. apply Nat.leb_le in Hthree. rewrite Hthree. simpl andb. cbv iota.
  destruct (selectedFile (ui w)); unfold I; cbn;
    rewrite posts_snoc, filter_app; cbn; rewrite !app_nil_r; repeat split.
Qed.

(** A refresh the store answers copies the account to the page. *)
Lemma fetchUserData_answered (w : World State) (mail : jsstring) (id : DocId)
    (acc : Account) (more : list (DocId * Account)) :
  lets_through w ->
  query (users (db w)) [mkWhere (lit "email") (Some mail)] = (id, acc) :: more ->
  ui (run (fetchUserData (Some mail)) w)
  = setLoading false (setUserImages (images acc) (setUserData (Some (id, acc)) (ui w))).
Proof.
  intros Ho Hq.
  destruct w as [d u o h c n ss loc lg st]. unfold lets_through in Ho.
  simpl in Ho, Hq.
  unfold run, fetchUserData, fetchUserData_around, getDocs, getDocs_request,
    getDocs_answer, try_catch_finally, bind, emit, nextOutcome,
    setState, ret.
  destruct o as [|[e|] rest]; simpl in Ho; try discriminate; cbn; rewrite Hq;
    reflexivity.
Qed.

(** C4, as stated, fails on its last part.  Bob's account holds two
    images when he opens the portal.  He uploads a third; the store
    accepts the write and fails the refresh that follows, which
    [fetchUserData] only logs, so the page still counts two images while
    the account holds three.  He chooses another file: no image is being
    edited, and the upload is sent to the host. *)
Lemma upload_cap_stale_copy_counterexample : ~ upload_cap_on_account.
Proof.
  intros H.
  specialize (H StaleCopyExample.arrival StaleCopyExample.visit eq_refl).
  cbv zeta in H.
  assert (Hholds : accountHolds 3 (session (Mount :: StaleCopyExample.visit)
                                     StaleCopyExample.arrival)).
  { exists 7%N, (DeleteImageExample.account ReplaceExample.held),
      (ReplaceExample.held
       ++ [newImage ReplaceExample.answer (lit "2024-03-01T00:00:00.000Z")
             ReplaceExample.photo]).
    split; [reflexivity | split; [reflexivity | simpl; lia]]. }
  specialize (H Hholds eq_refl).
  assert (Hbefore : posts (log (session (Mount :: StaleCopyExample.visit)
                                  StaleCopyExample.arrival))
                    = [ReplaceExample.photo]) by reflexivity.
  assert (Hafter : posts (log (run handleUploadImage
                                 (session (Mount :: StaleCopyExample.visit)
                                    StaleCopyExample.arrival)))
                   = [ReplaceExample.photo; StaleCopyExample.fourth]) by reflexivity.
  rewrite Hbefore, Hafter in H. discriminate H.
Qed.

(** In that visit the upload also reaches the store: the account ends
    with four images. *)
Lemma stale_copy_stores_fourth_image :
  let w := session (Mount :: StaleCopyExample.visit) StaleCopyExample.arrival in
  option_map (@List.length ImageRef) (imagesOf 7%N (db w)) = Some 3%nat
  /\ List.length (userImages (ui w)) = 2%nat
  /\ option_map (@List.length ImageRef) (imagesOf 7%N (db (run handleUploadImage w)))
     = Some 4%nat.
Proof. repeat split; reflexivity. Qed.

(** C4, amended.  The upload preconditions hold before any network call.
    A file over 5 MB or whose type does not begin with [image/] is
    refused by [handleFileSelect]: no request is sent, the file does not
    become the selected file and, whatever the user does next, it is
    never sent to the host.  An upload outside the replace path while
    the page counts three images or more is refused by
    [handleUploadImage]: nothing is sent to the host and nothing to the
    store.  The images the page counts are those of the account as it
    last fetched them: a fetch the store answers leaves in [userImages]
    the [images] of the account, so right after such a fetch an account
    that holds three images is refused a fourth. *)
Theorem image_upload_preconditions (w : World State) (f : File) :
  ((UserPortalDashboard.MAX_SIZE < file_size f)%N
   \/ startsWith (file_type f) (lit "image/") = false) ->
  (let w' := run (handleFileSelect (Some f)) w in
   posts (log w') = posts (log w)
   /\ filter isStoreRequest (log w') = filter isStoreRequest (log w)
   /\ selectedFile (ui w') = selectedFile (ui w)
   /\ exists description, log w' = log w ++ [Toast (lit "Error") description true])
  /\ (upload_inv w ->
      forall es, ~ In f (posts (log (session (FileSelect (Some f) :: es) w))))
  /\ ((3 <= List.length (userImages (ui w)))%nat ->
      editingImage (ui w) = None ->
      let w' := run handleUploadImage w in
      posts (log w') = posts (log w)
      /\ filter isStoreRequest (log w') = filter isStoreRequest (log w)
      /\ db w' = db w)
  /\ (forall mail id acc more,
        lets_through w ->
        query (users (db w)) [mkWhere (lit "email") (Some mail)] = (id, acc) :: more ->
        userImages (ui (run (fetchUserData (Some mail)) w)) = images acc)
  /\ (forall mail id acc more,
        lets_through w ->
        query (users (db w)) [mkWhere (lit "email") (Some mail)] = (id, acc) :: more ->
        (3 <= List.length (images acc))%nat ->
        editingImage (ui w) = None ->
        let w1 := run (fetchUserData (Some mail)) w in
        let w' := run handleUploadImage w1 in
        posts (log w') = posts (log w1)
        /\ filter isStoreRequest (log w') = filter isStoreRequest (log w1)
        /\ db w' = db w1).
Proof.
  intros Hbad.
  assert (Hnot : ~ acceptable f).
  { intros [Ht Hs]. destruct Hbad as [Hbad | Hbad]; [| congruence].
    apply N.lt_nge in Hbad. contradiction. }
  split; [| split; [| split; [| split]]].
  - unfold run, handleFileSelect.
    destruct (startsWith (file_type f) (lit "image/")) eqn:Et; simpl negb; cbv iota.
    + destruct (MAX_SIZE <? file_size f)%N eqn:Es.
      * cbn. rewrite posts_snoc, filter_app. cbn. rewrite !app_nil_r.
        repeat split. eexists. reflexivity.
      * exfalso. apply Hnot. split; [exact Et | now apply N.ltb_ge].
    + cbn. rewrite posts_snoc, filter_app. cbn. rewrite !app_nil_r.
      repeat split. eexists. reflexivity.
  - intros Hinv es Hin.
    pose proof (session_inv (FileSelect (Some f) :: es) w Hinv) as [Hposts _].
    rewrite Forall_forall in Hposts. apply Hnot. now apply Hposts.
  - apply upload_refused_at_three.
  - intros mail id acc more Ho Hq.
    now rewrite (fetchUserData_answered w mail id acc more Ho Hq).
  - intros mail id acc more Ho Hq Hthree Hedit.
    pose proof (fetchUserData_answered w mail id acc more Ho Hq) as Hui.
    apply upload_refused_at_three; rewrite Hui; [exact Hthree | exact Hedit].
Qed.

Lemma image_upload_preconditions_witness :
  let w' := run handleUploadImage UploadExample.full in
  posts (log w') = posts (log UploadExample.full)
  /\ filter isStoreRequest (log w') = filter isStoreRequest (log UploadExample.full)
  /\ db w' = db UploadExample.full.
Proof.
  refine (proj1 (proj2 (proj2
            (image_upload_preconditions UploadExample.full UploadExample.big _)))
            _ eq_refl).
  - left. vm_compute. reflexivity.
  - simpl. lia.
Defined.

End UploadClaim.

(* ================================================================== *)
(** * The Add New User form *)
(* ================================================================== *)

Section AddUser.
Import Dashboard.

(** [addDoc] stamps the owner and the server's time. *)
Lemma insertUser_stamps (data : FormData) (o : jsstring) (s : Store) :
  exists a,
    users (insertUser data o s) = users s ++ [(nextId s, a)]
    /\ createdBy a = o /\ createdAt a = serverTime s
    /\ role a = f_role data /\ status a = f_status data
    /\ username a = f_username data /\ email a = f_email data.
Proof. eexists. repeat split. Qed.

Lemma inv_bind_useAuth {S B} (I : World S -> Prop) (u : option AuthUser)
    (k : option AuthUser -> M S B) :
  (forall w, I w -> currentUser w = u) ->
  inv_step I (k u) -> inv_step I (bind useAuth k).
Proof.
  intros Hu Hk w Hw. unfold bind, useAuth. rewrite (Hu w Hw). now apply Hk.
Qed.

Variable u : option AuthUser.
Variable before : list (DocId * Account).

Ltac dash_side :=
  intros; unfold dashboard_inv in *;
  match goal with
  | H : _ /\ _ /\ _ |- _ =>
      let A := fresh in let B := fresh in let C := fresh in
      destruct H as (A & B & C);
      split; [exact A | split; [first [exact B | split; left; reflexivity] | exact C]]
  end.

Lemma handleSubmit_inv : inv_step (dashboard_inv u before) handleSubmit.
Proof.
  intros w Hw. unfold handleSubmit.
  unfold bind at 1. unfold getState at 1. cbv beta iota.
  assert (Hform : form_ok (formData (ui w))) by apply Hw.
  generalize dependent (formData (ui w)). intros data Hform.
  revert w Hw.
  match goal with |- forall w0, dashboard_inv u before w0 -> dashboard_inv u before (snd (?m w0)) =>
    change (inv_step (dashboard_inv u before) m) end.
  unfold addDoc, toast, console_error, handleCancel.
  inv_walk_pre
    ltac:(first
      [ apply (inv_bind_useAuth (dashboard_inv u before) u); [intros w0 H0; apply H0 |]
      | apply inv_commit_insert; intros w0 (H1 & H2 & H3);
        split; [exact H1 | split; [exact H2 |]];
        cbn; apply Forall_app; split; [exact H3 |];
        constructor; [| constructor]; right;
        destruct Hform as [Hr Hs]; repeat split; assumption ])
    dash_side.
Qed.

Lemma dashboard_handle_inv (e : Event) : inv_step (dashboard_inv u before) (handle e).
Proof.
  destruct e; simpl.
  - unfold handleInputChange. apply inv_setState.
    intros w (H1 & [Hr Hs] & H3). split; [exact H1 | split; [| exact H3]].
    split; assumption.
  - unfold handleInputChange. apply inv_setState.
    intros w (H1 & [Hr Hs] & H3). split; [exact H1 | split; [| exact H3]].
    split; assumption.
  - unfold handleSelectChange. apply inv_setState.
    intros w (H1 & [Hr Hs] & H3). split; [exact H1 | split; [| exact H3]].
    split; [| exact Hs]. destruct r; cbn; auto.
  - unfold handleSelectChange. apply inv_setState.
    intros w (H1 & [Hr Hs] & H3). split; [exact H1 | split; [| exact H3]].
    split; [exact Hr |]. destruct s; cbn; auto.
  - intros w Hw. unfold bind at 1. unfold getState at 1. cbv beta iota.
    destruct (truthy (f_username (formData (ui w))) && truthy (f_email (formData (ui w)))).
    + now apply handleSubmit_inv.
    + exact Hw.
  - unfold handleCancel. apply inv_setState. dash_side.
Qed.

End AddUser.

Section AddUserClaim.
Import Dashboard.

Lemma dashboard_session_inv (u : option AuthUser) (before : list (DocId * Account))
    (es : list Event) :
  forall w, dashboard_inv u before w -> dashboard_inv u before (session es w).
Proof.
  induction es as [|e es IH]; intros w H; simpl; auto.
  apply IH. now apply dashboard_handle_inv.
Qed.

(** Whatever the admin does with the form, the accounts it adds carry a
    role and a status that are an item of the select or the empty string
    of its placeholder, and the owner stamp of the signed-in admin. *)
Lemma add_user_session_accounts (es : list Event) (w : World State) :
  form_ok (formData (ui w)) ->
  Forall (fun d => In d (users (db w))
                   \/ created_by_form (currentUser w) (snd d))
         (users (db (session es w))).
Proof.
  intros Hform.
  apply (dashboard_session_inv (currentUser w) (users (db w)) es w).
  split; [reflexivity | split; [exact Hform |]].
  apply Forall_forall. intros d Hd. now left.
Qed.

(** C8, on the code. Submitting the form with both selects left on
    their placeholder creates an account whose role and status are the
    empty string: neither is in the set the specification gives.  The
    account is stamped with the admin's email and the server's time; and
    when a role and a status are picked, the account carries them. *)
Theorem add_user_without_selects :
  let created := users (db (session AddUserExample.hasty AddUserExample.fresh)) in
  created
  = [(8%N, mkAccount (lit "bob") (lit "b@x.com") [] [] None None (lit "a@x.com") 10%N [])]
  /\ (forall d, In d created ->
        ~ In (role (snd d)) role_values /\ ~ In (status (snd d)) status_values)
  /\ users (db (session AddUserExample.careful AddUserExample.fresh))
     = [(8%N, mkAccount (lit "bob") (lit "b@x.com") (lit "user") (lit "pending")
                None None (lit "a@x.com") 10%N [])].
Proof.
  split; [vm_compute; reflexivity | split; [| vm_compute; reflexivity]].
  intros d Hd. vm_compute in Hd. destruct Hd as [<- | []].
  split; vm_compute; intuition discriminate.
Qed.

End AddUserClaim.
